(** * Uplift HTTP text-to-speech adapter for Pipecat

    A shallow embedding of [src/pipecat_upliftai/tts.py] (class
    [UpliftHttpTTSService]) and the properties of its constructor, its
    setters, [cleanup] and the generator [run_tts].

    The adapter is a leaf of a larger framework.  What the framework provides
    (metric hooks, the error channel, the HTTP session, the chunk size) is
    modelled as follows:
    - every call that leaves the adapter is recorded, in order, in a trace of
      [effect]s; the frames the generator yields are part of that trace;
    - what the outside world answers (the HTTP response, or the exception a
      hook raises) is read from an environment [Env];
    - [push_error], [logger] and [ClientSession.close] only record. *)

From Stdlib Require Import ZArith Lia List Strings.Byte.
From stdpp Require Import base gmap strings list pretty.


(** ** The fragment of Python the adapter uses *)

Module Py.

(** An exception: its class and [str(e)]. *)
Record Exception := mkException { exc_type : string; exc_str : string }.

(** The result of a call that may raise. *)
Inductive outcome (A : Type) : Type :=
| Returns (a : A)
| Raises (e : Exception).
Global Arguments Returns {A} a.
Global Arguments Raises {A} e.

(** The classes that derive from [BaseException] without deriving from
    [Exception]: the built-in ones and [asyncio.CancelledError]. *)
Definition BaseException_only : list string :=
  ["BaseException"; "BaseExceptionGroup"; "GeneratorExit"; "KeyboardInterrupt";
   "SystemExit"; "CancelledError"].

(** [isinstance(e, Exception)], decided on the class of [e]. *)
Definition is_Exception (e : Exception) : bool :=
  negb (bool_decide (exc_type e ∈ BaseException_only)).

(** [len(s)] of a [str]: one element of the string per character. *)
Definition len (s : string) : nat := String.length s.

(** Truth value of a [str]: only the empty string is false. *)
Definition truthy (s : string) : bool :=
  match s with EmptyString => false | String _ _ => true end.

(** [x or y] where [x : Optional[str]]: [None] and [''] are false. *)
Definition or_ (x : option string) (y : string) : string :=
  match x with
  | Some s => if truthy s then s else y
  | None => y
  end.

(** [s.startswith(p)]. *)
Definition startswith (s p : string) : bool := String.prefix p s.

(** [sep.join(l)]. *)
Definition join (sep : string) (l : list string) : string := String.concat sep l.

(** [s[:n]] of a [str]. *)
Definition str_upto (n : nat) (s : string) : string := String.substring 0 n s.

(** [l[i:j]] for indices [0 <= i], [0 <= j]: empty when [j <= i], cut at
    the end of [l]. *)
Definition slice {A} (l : list A) (i j : nat) : list A := take (j - i) (drop i l).

(** [range(0, stop, step)] for [stop >= 0] and [step >= 0]: a zero step
    raises [ValueError], otherwise the offsets [0, step, 2*step, ...] below
    [stop]; there are [ceil(stop / step)] of them. *)
Definition range (stop step : nat) : outcome (list nat) :=
  match step with
  | O => Raises (mkException "ValueError" "range() arg 3 must not be zero")
  | S _ => Returns (map (λ k, k * step)%nat (seq 0 ((stop + step - 1) / step)%nat))
  end.

(** [d[k]] of a [dict]: a missing key raises [KeyError], whose [str] is the
    [repr] of the key. *)
Definition getitem (d : gmap string string) (k : string) : outcome string :=
  match d !! k with
  | Some v => Returns v
  | None => Raises (mkException "KeyError" ("'" +:+ k +:+ "'"))
  end.

End Py.
Import Py.

(** ** Frames, requests and the trace of a call *)

(** The four kinds of frame the adapter produces. *)
Inductive Frame : Type :=
| TTSStartedFrame
| TTSAudioRawFrame (audio : list byte) (sample_rate : Z) (num_channels : Z)
| TTSStoppedFrame
| ErrorFrame (error : string).

(** An [aiohttp.ClientSession], by identity. *)
Definition ClientSession : Type := nat.

(** What [session.post(url, json=..., headers=...)] is called with. *)
Record Request := mkRequest {
  req_url : string;
  req_json : gmap string string;
  req_headers : gmap string string
}.

(** An [aiohttp.ClientResponse]: its status, and what [await response.text()]
    and [await response.read()] give. *)
Record ClientResponse := mkResponse {
  resp_status : Z;
  resp_text : outcome string;
  resp_read : outcome (list byte)
}.

Inductive level : Type := DEBUG | INFO | WARNING | ERROR.

(** One observable step of the adapter. *)
Inductive effect : Type :=
| Log (lvl : level) (msg : string)
| Yield (f : Frame)
| PushError (f : Frame)
| Post (s : ClientSession) (req : Request)
| NewSession (s : ClientSession)
| Close (s : ClientSession)
| StartTtfbMetrics
| StopTtfbMetrics
| StartTtsUsageMetrics (text : string).

(** What the world answers during one call of [run_tts]. *)
Record Env := mkEnv {
  env_start_ttfb_metrics : outcome unit;
  env_post : ClientSession → Request → outcome ClientResponse;
  env_start_tts_usage_metrics : string → outcome unit;
  (** [stop_ttfb_metrics] is awaited once per loop iteration; its outcome is
      indexed by the loop variable [i]. *)
  env_stop_ttfb_metrics : nat → outcome unit
}.

(** ** The adapter object *)

Record InputParams := mkInputParams {
  p_voice_id : option string;
  p_output_format : option string
}.

(** [InputParams()]: the defaults of the two fields. *)
Definition InputParams_default : InputParams :=
  {| p_voice_id := None; p_output_format := Some "WAV_22050_16" |}.

(** The part of the object that belongs to the framework's [TTSService]:
    [str(self)], the [sample_rate] and [chunk_size] properties (a rate in Hz
    and a size in bytes), and the voice registered by [set_voice]. *)
Record TTSService := mkTTSService {
  name : string;
  sample_rate : Z;
  chunk_size : nat;
  _voice_id : string
}.

(** [TTSService.set_voice(voice)]. *)
Definition set_voice (voice : string) (b : TTSService) : TTSService :=
  {| name := name b; sample_rate := sample_rate b; chunk_size := chunk_size b;
     _voice_id := voice |}.

Record UpliftHttpTTSService := mkService {
  base : TTSService;
  _api_key : string;
  _base_url : string;
  _params : InputParams;
  _session : option ClientSession;
  _created_session : bool;
  _settings : gmap string string
}.

Definition with_base (b : TTSService) (self : UpliftHttpTTSService) :=
  {| base := b; _api_key := _api_key self; _base_url := _base_url self;
     _params := _params self; _session := _session self;
     _created_session := _created_session self; _settings := _settings self |}.

Definition with_session (s : option ClientSession) (self : UpliftHttpTTSService) :=
  {| base := base self; _api_key := _api_key self; _base_url := _base_url self;
     _params := _params self; _session := s;
     _created_session := _created_session self; _settings := _settings self |}.

Definition with_settings (d : gmap string string) (self : UpliftHttpTTSService) :=
  {| base := base self; _api_key := _api_key self; _base_url := _base_url self;
     _params := _params self; _session := _session self;
     _created_session := _created_session self; _settings := d |}.

Definition AVAILABLE_VOICES : list string :=
  ["v_8eelc901"; "v_kwmp7zxt"; "v_yypgzenx"; "v_30s70t3a"].

Definition AVAILABLE_FORMATS : list string :=
  ["WAV_22050_16"; "WAV_22050_32"; "MP3_22050_32"; "MP3_22050_64";
   "MP3_22050_128"; "OGG_22050_16"; "ULAW_8000_8"].

(** ** Methods as computations over [self]

    A method reads and writes [self], appends to the trace, and returns or
    raises. *)

Definition M (A : Type) : Type :=
  UpliftHttpTTSService → UpliftHttpTTSService * list effect * outcome A.

Definition ret {A} (a : A) : M A := λ self, (self, [], Returns a).

Definition bind {A B} (m : M A) (k : A → M B) : M B :=
  λ self,
    match m self with
    | (self1, t1, Returns a) =>
        match k a self1 with
        | (self2, t2, o) => (self2, t1 ++ t2, o)
        end
    | (self1, t1, Raises e) => (self1, t1, Raises e)
    end.

Definition raise {A} (e : Exception) : M A := λ self, (self, [], Raises e).

Definition tell (x : effect) : M unit := λ self, (self, [x], Returns tt).

Definition get : M UpliftHttpTTSService := λ self, (self, [], Returns self).

Definition put (self' : UpliftHttpTTSService) : M unit := λ _, (self', [], Returns tt).

(** A call whose result the world decides. *)
Definition lift {A} (o : outcome A) : M A := λ self, (self, [], o).

(** [try: body except Exception as e: handler(e)].  The clause tests the
    class: an exception that is not an [Exception] (a cancellation, a
    [GeneratorExit]) is not handled and goes on to the caller. *)
Definition try_except (body : M unit) (handler : Exception → M unit) : M unit :=
  λ self,
    match body self with
    | (self1, t1, Returns a) => (self1, t1, Returns a)
    | (self1, t1, Raises e) =>
        if is_Exception e then
          match handler e self1 with
          | (self2, t2, o) => (self2, t1 ++ t2, o)
          end
        else (self1, t1, Raises e)
    end.

Declare Scope gen_scope.
Delimit Scope gen_scope with gen.
Notation "x <- m ;; k" := (bind m (λ x, k))
  (at level 100, m at next level, k at level 200, right associativity) : gen_scope.
Notation "m ;;; k" := (bind m (λ _, k))
  (at level 100, k at level 200, right associativity) : gen_scope.
Local Open Scope gen_scope.

Definition log (lvl : level) (msg : string) : M unit := tell (Log lvl msg).
Definition yield (f : Frame) : M unit := tell (Yield f).
Definition push_error (f : Frame) : M unit := tell (PushError f).

(** The trace, the final object and the result of running a method. *)
Definition trace_of {A} (r : UpliftHttpTTSService * list effect * outcome A) : list effect := r.1.2.
Definition self_of {A} (r : UpliftHttpTTSService * list effect * outcome A) : UpliftHttpTTSService := r.1.1.
Definition result_of {A} (r : UpliftHttpTTSService * list effect * outcome A) : outcome A := r.2.

(** ** The adapter's methods *)

Definition unknown_voice_message (voice_id : string) : string :=
  "Voice '" +:+ voice_id +:+ "' not in known voices list. " +:+
  "Available voices: " +:+ join ", " AVAILABLE_VOICES.

Definition unknown_format_message (output_format : string) : string :=
  "Output format '" +:+ output_format +:+ "' not in known formats list. " +:+
  "Available formats: " +:+ join ", " AVAILABLE_FORMATS.

(** The arguments of the constructor, with the defaults of its signature. *)
Record Args := mkArgs {
  api_key : string;
  base_url : string;
  voice_id : string;
  output_format : string;
  aiohttp_session : option ClientSession;
  params : option InputParams
}.

Definition default_args (key : string) : Args :=
  {| api_key := key;
     base_url := "https://api.upliftai.org/v1/synthesis/text-to-speech";
     voice_id := "v_8eelc901";
     output_format := "WAV_22050_16";
     aiohttp_session := None;
     params := None |}.

(** [UpliftHttpTTSService.__init__].  [super] is the base part of the object
    as [super().__init__(sample_rate=sample_rate, **kwargs)] leaves it, and
    [fresh] the session [aiohttp.ClientSession()] would create.  The result is
    the trace and either the constructed object or the exception raised. *)
Definition __init__ (super : TTSService) (fresh : ClientSession) (a : Args)
  : list effect * outcome UpliftHttpTTSService :=
  if negb (truthy (api_key a)) then
    ([], Raises (mkException "ValueError" "Missing Uplift API key"))
  else
    let params_ := match params a with Some p => p | None => InputParams_default end in
    let '(session, created, t_session) :=
      match aiohttp_session a with
      | Some s => (s, false, [])
      | None => (fresh, true, [NewSession fresh; Log DEBUG "Created internal aiohttp session"])
      end in
    let final_output_format := or_ (p_output_format params_) (output_format a) in
    let t_format :=
      if bool_decide (final_output_format ∈ AVAILABLE_FORMATS) then []
      else [Log WARNING (unknown_format_message final_output_format)] in
    let settings : gmap string string :=
      {[ "voice_id" := or_ (p_voice_id params_) (voice_id a);
         "output_format" := final_output_format ]} in
    match getitem settings "voice_id", getitem settings "output_format" with
    | Returns v, Returns f =>
        let t_voice :=
          if bool_decide (v ∈ AVAILABLE_VOICES) then []
          else [Log WARNING (unknown_voice_message v)] in
        (t_session ++ t_format ++ t_voice ++
           [Log DEBUG ("Uplift HTTP TTS initialized with voice_id=" +:+ v +:+
                       ", output_format=" +:+ f)],
         Returns {| base := set_voice v super;
                    _api_key := api_key a;
                    _base_url := base_url a;
                    _params := params_;
                    _session := Some session;
                    _created_session := created;
                    _settings := settings |})
    | Raises e, _ | _, Raises e => (t_session ++ t_format, Raises e)
    end.

(** [set_voice_id]. *)
Definition set_voice_id (voice_id : string) : M unit :=
  (if bool_decide (voice_id ∈ AVAILABLE_VOICES) then ret tt
   else log WARNING (unknown_voice_message voice_id)) ;;;
  log INFO ("Switching Uplift TTS voice to: [" +:+ voice_id +:+ "]") ;;;
  self <- get ;;
  put (with_settings (<["voice_id" := voice_id]> (_settings self)) self) ;;;
  self <- get ;;
  put (with_base (set_voice voice_id (base self)) self).

(** [set_output_format]. *)
Definition set_output_format (output_format : string) : M unit :=
  (if bool_decide (output_format ∈ AVAILABLE_FORMATS) then ret tt
   else log WARNING (unknown_format_message output_format)) ;;;
  log INFO ("Switching Uplift TTS output format to: [" +:+ output_format +:+ "]") ;;;
  self <- get ;;
  put (with_settings (<["output_format" := output_format]> (_settings self)) self).

(** [cleanup]: [self._created_session and self._session] is true when the
    flag is set and the reference is not [None]. *)
Definition cleanup : M unit :=
  self <- get ;;
  match _created_session self, _session self with
  | true, Some s =>
      tell (Close s) ;;;
      put (with_session None self) ;;;
      log DEBUG "Closed internal aiohttp session"
  | _, _ => ret tt
  end.

(** [__aenter__] and [__aexit__]. *)
Definition __aenter__ : M UpliftHttpTTSService := get.
Definition __aexit__ : M unit := cleanup.

(** A call to the framework or to the network: it is recorded, and the world
    decides whether it returns or raises. *)
Definition call {A} (x : effect) (o : outcome A) : M A := tell x ;;; lift o.

Definition truncation_message (text : string) : string :=
  "Text length (" +:+ pretty (len text) +:+
  ") exceeds Uplift's maximum of 2500 characters. " +:+ "Truncating...".

Definition http_error_message (status : Z) (error_text : string) : string :=
  "Uplift HTTP TTS error: " +:+ pretty status +:+ " - " +:+ error_text.

Definition generation_error_message (e : Exception) : string :=
  "TTS generation error: " +:+ exc_str e.

(** The body of the [for] loop of [run_tts], over the offsets [idxs] that
    [range] produced. *)
Fixpoint run_tts_loop (env : Env) (audio_content : list byte) (CHUNK_SIZE : nat)
    (idxs : list nat) : M unit :=
  match idxs with
  | [] => ret tt
  | i :: rest =>
      let chunk := slice audio_content i (i + CHUNK_SIZE) in
      match chunk with
      | [] => ret tt
      | _ :: _ =>
          call StopTtfbMetrics (env_stop_ttfb_metrics env i) ;;;
          self <- get ;;
          yield (TTSAudioRawFrame chunk (sample_rate (base self)) 1) ;;;
          run_tts_loop env audio_content CHUNK_SIZE rest
      end
  end.

(** The text [run_tts] works on: lines 236-241, the cut to 2500 characters
    and its warning. *)
Definition run_tts_validate (text : string) : M string :=
  if (2500 <? len text)%nat then
    log WARNING (truncation_message text) ;;;
    ret (str_upto 2500 text)
  else ret text.

(** The [try] block of [run_tts]. *)
Definition run_tts_try (env : Env) (text : string) : M unit :=
  call StartTtfbMetrics (env_start_ttfb_metrics env) ;;;
  self <- get ;;
  let headers : gmap string string :=
    {[ "Authorization" := "Bearer " +:+ _api_key self;
       "Content-Type" := "application/json" ]} in
  voice <- lift (getitem (_settings self) "voice_id") ;;
  format <- lift (getitem (_settings self) "output_format") ;;
  let payload : gmap string string :=
    {[ "text" := text; "voiceId" := voice; "outputFormat" := format ]} in
  session <- match _session self with
             | Some s => ret s
             | None => raise (mkException "AttributeError"
                                "'NoneType' object has no attribute 'post'")
             end ;;
  let request := mkRequest (_base_url self) payload headers in
  response <- call (Post session request) (env_post env session request) ;;
  if negb (resp_status response =? 200)%Z then
    error_text <- lift (resp_text response) ;;
    let error_message := http_error_message (resp_status response) error_text in
    log ERROR error_message ;;;
    push_error (ErrorFrame error_message) ;;;
    yield (ErrorFrame error_message)
  else
    audio_bytes <- lift (resp_read response) ;;
    call (StartTtsUsageMetrics text) (env_start_tts_usage_metrics env text) ;;;
    yield TTSStartedFrame ;;;
    self <- get ;;
    format <- lift (getitem (_settings self) "output_format") ;;
    audio_content <-
      (if startswith format "WAV_" then
         log DEBUG "Skipping WAV header (44 bytes)" ;;;
         ret (drop 44 audio_bytes)
       else
         log DEBUG "Using raw audio bytes (no header to skip)" ;;;
         ret audio_bytes) ;;
    self <- get ;;
    let CHUNK_SIZE := chunk_size (base self) in
    idxs <- lift (range (length audio_content) CHUNK_SIZE) ;;
    run_tts_loop env audio_content CHUNK_SIZE idxs ;;;
    yield TTSStoppedFrame.

(** The [except Exception as e] block of [run_tts]. *)
Definition run_tts_except (e : Exception) : M unit :=
  let error_message := generation_error_message e in
  log ERROR error_message ;;;
  push_error (ErrorFrame error_message) ;;;
  yield (ErrorFrame error_message).

(** [run_tts], consumed to its end. *)
Definition run_tts (env : Env) (text : string) : M unit :=
  self <- get ;;
  log DEBUG (name (base self) +:+ ": Generating TTS [" +:+ text +:+ "]") ;;;
  text <- run_tts_validate text ;;
  try_except (run_tts_try env text) run_tts_except.

(** ** What a trace shows *)

(** The frames yielded, in order. *)
Definition events (t : list effect) : list Frame :=
  omap (λ x, match x with Yield f => Some f | _ => None end) t.

(** The frames handed to [push_error], in order. *)
Definition published (t : list effect) : list Frame :=
  omap (λ x, match x with PushError f => Some f | _ => None end) t.

(** The requests sent, each with the session it was sent on, in order. *)
Definition posts (t : list effect) : list (ClientSession * Request) :=
  omap (λ x, match x with Post s r => Some (s, r) | _ => None end) t.

(** The sessions [close] was called on, in order. *)
Definition closed (t : list effect) : list ClientSession :=
  omap (λ x, match x with Close s => Some s | _ => None end) t.

(** The messages logged at a given level, in order. *)
Definition logged (lvl : level) (t : list effect) : list string :=
  omap (λ x, match x with
             | Log l msg => match lvl, l with
                            | DEBUG, DEBUG | INFO, INFO | WARNING, WARNING | ERROR, ERROR => Some msg
                            | _, _ => None
                            end
             | _ => None
             end) t.

(** The audio bytes of the audio frames of a list of frames, in order. *)
Definition audio_segments (fs : list Frame) : list (list byte) :=
  omap (λ f, match f with TTSAudioRawFrame audio _ _ => Some audio | _ => None end) fs.

(** The response a call received: a request was sent and the world answered
    it with [r]. *)
Definition http_response (env : Env) (t : list effect) (r : ClientResponse) : Prop :=
  ∃ s req, (s, req) ∈ posts t ∧ env_post env s req = Returns r.

(** The audio [run_tts] streams for a response body under a format: lines
    281-286, without the 44-byte header for a [WAV_] format. *)
Definition audio_content (format : string) (audio_bytes : list byte) : list byte :=
  if startswith format "WAV_" then drop 44 audio_bytes else audio_bytes.

(** The text [run_tts] sends: lines 236-241. *)
Definition transmitted (text : string) : string :=
  if (2500 <? len text)%nat then str_upto 2500 text else text.

(** [ceil(L / N)] for [N > 0]. *)
Definition ceil_div (L N : nat) : nat := ((L + N - 1) / N)%nat.

(** The call succeeds fully: the [try] block of [run_tts] ends without an
    exception, on a response of status 200. *)
Definition succeeds_fully (env : Env) (text : string) (self : UpliftHttpTTSService) : Prop :=
  result_of (run_tts_try env (transmitted text) self) = Returns tt ∧
  ∃ r, http_response env (trace_of (run_tts env text self)) r ∧ resp_status r = 200%Z.

(** [sub] occurs in [s]. *)
Definition contains (s sub : string) : Prop := ∃ pre post, s = pre +:+ sub +:+ post.

(** The audio frame the loop builds from a chunk. *)
Definition audio_frame (self : UpliftHttpTTSService) (chunk : list byte) : Frame :=
  TTSAudioRawFrame chunk (sample_rate (base self)) 1.

(** One iteration leaves a metric call and one non-empty audio frame. *)
Definition loop_effect (self : UpliftHttpTTSService) (x : effect) : Prop :=
  x = StopTtfbMetrics ∨ ∃ chunk, chunk ≠ [] ∧ x = Yield (audio_frame self chunk).

(** ** The paths through [run_tts]

    What [run_tts] leaves in its trace, path by path; [run_tts_try_path]
    below shows that every run takes one of them. *)

(** The adapter has a session and both settings, and [req] is the request
    it builds for [text]. *)
Definition sends (self : UpliftHttpTTSService) (text : string)
    (s : ClientSession) (req : Request) : Prop :=
  ∃ voice format,
    _session self = Some s ∧
    _settings self !! "voice_id" = Some voice ∧
    _settings self !! "output_format" = Some format ∧
    req = mkRequest (_base_url self)
            {[ "text" := text; "voiceId" := voice; "outputFormat" := format ]}
            {[ "Authorization" := "Bearer " +:+ _api_key self;
               "Content-Type" := "application/json" ]}.

(** From the answer to the request to the end of the [try] block. *)
Inductive response_path (env : Env) (text : string) (self : UpliftHttpTTSService)
  : outcome ClientResponse → list effect → outcome unit → Prop :=
| rp_post_raises e :
    response_path env text self (Raises e) [] (Raises e)
| rp_http_error r body :
    resp_status r ≠ 200%Z →
    resp_text r = Returns body →
    response_path env text self (Returns r)
      [Log ERROR (http_error_message (resp_status r) body);
       PushError (ErrorFrame (http_error_message (resp_status r) body));
       Yield (ErrorFrame (http_error_message (resp_status r) body))]
      (Returns tt)
| rp_http_error_unreadable r e :
    resp_status r ≠ 200%Z →
    resp_text r = Raises e →
    response_path env text self (Returns r) [] (Raises e)
| rp_read_raises r e :
    resp_status r = 200%Z →
    resp_read r = Raises e →
    response_path env text self (Returns r) [] (Raises e)
| rp_usage_raises r audio_bytes e :
    resp_status r = 200%Z →
    resp_read r = Returns audio_bytes →
    env_start_tts_usage_metrics env text = Raises e →
    response_path env text self (Returns r) [StartTtsUsageMetrics text] (Raises e)
| rp_range_raises r audio_bytes format content note e :
    resp_status r = 200%Z →
    resp_read r = Returns audio_bytes →
    env_start_tts_usage_metrics env text = Returns tt →
    _settings self !! "output_format" = Some format →
    content = audio_content format audio_bytes →
    range (length content) (chunk_size (base self)) = Raises e →
    response_path env text self (Returns r)
      [StartTtsUsageMetrics text; Yield TTSStartedFrame; Log DEBUG note]
      (Raises e)
| rp_interrupted r audio_bytes format content note idxs t_loop e :
    resp_status r = 200%Z →
    resp_read r = Returns audio_bytes →
    env_start_tts_usage_metrics env text = Returns tt →
    _settings self !! "output_format" = Some format →
    content = audio_content format audio_bytes →
    range (length content) (chunk_size (base self)) = Returns idxs →
    run_tts_loop env content (chunk_size (base self)) idxs self = (self, t_loop, Raises e) →
    response_path env text self (Returns r)
      (StartTtsUsageMetrics text :: Yield TTSStartedFrame :: Log DEBUG note :: t_loop)
      (Raises e)
| rp_streamed r audio_bytes format content note idxs t_loop :
    resp_status r = 200%Z →
    resp_read r = Returns audio_bytes →
    env_start_tts_usage_metrics env text = Returns tt →
    _settings self !! "output_format" = Some format →
    content = audio_content format audio_bytes →
    range (length content) (chunk_size (base self)) = Returns idxs →
    run_tts_loop env content (chunk_size (base self)) idxs self = (self, t_loop, Returns tt) →
    response_path env text self (Returns r)
      (StartTtsUsageMetrics text :: Yield TTSStartedFrame :: Log DEBUG note ::
         t_loop ++ [Yield TTSStoppedFrame])
      (Returns tt).

(** The whole [try] block: an exception before anything is sent, or a
    request and what follows its answer. *)
Inductive try_path (env : Env) (text : string) (self : UpliftHttpTTSService)
  : list effect → outcome unit → Prop :=
| path_unsent e :
    try_path env text self [StartTtfbMetrics] (Raises e)
| path_sent s req t o :
    sends self text s req →
    response_path env text self (env_post env s req) t o →
    try_path env text self (StartTtfbMetrics :: Post s req :: t) o.

(** What the validation of the text and the [except] block add to the
    trace; the [except] block only runs for an [Exception]. *)
Definition validation_trace (text : string) : list effect :=
  if (2500 <? len text)%nat then [Log WARNING (truncation_message text)] else [].

Definition except_trace (o : outcome unit) : list effect :=
  match o with
  | Returns _ => []
  | Raises e =>
      if is_Exception e then
        [Log ERROR (generation_error_message e);
         PushError (ErrorFrame (generation_error_message e));
         Yield (ErrorFrame (generation_error_message e))]
      else []
  end.

(** How [run_tts] ends, given how its [try] block ended: normally, unless
    the block raised an exception that [except Exception] does not catch. *)
Definition run_result (o : outcome unit) : outcome unit :=
  match o with
  | Returns _ => Returns tt
  | Raises e => if is_Exception e then Returns tt else Raises e
  end.

(** The answer to the request lets the adapter start streaming: a response
    of status 200 whose body can be read, and a usage hook that returns. *)
Definition streams (env : Env) (text : string) (a : outcome ClientResponse) : Prop :=
  ∃ r audio_bytes,
    a = Returns r ∧ resp_status r = 200%Z ∧ resp_read r = Returns audio_bytes ∧
    env_start_tts_usage_metrics env text = Returns tt.


(** The consecutive chunks of [N] elements of a buffer, the last one
    possibly shorter. *)
Definition chunks_of {A} (c : list A) (N : nat) : list (list A) :=
  map (λ k, slice c (k * N) (k * N + N))%nat (seq 0 (ceil_div (length c) N)).

(** ** Concrete objects and worlds *)

Definition example_base : TTSService :=
  {| name := "UpliftHttpTTSService#0"; sample_rate := 22050; chunk_size := 4096;
     _voice_id := "" |}.

(** The object [UpliftHttpTTSService(api_key="sk_test")] is. *)
Definition example_service : UpliftHttpTTSService :=
  {| base := set_voice "v_8eelc901" example_base;
     _api_key := "sk_test";
     _base_url := "https://api.upliftai.org/v1/synthesis/text-to-speech";
     _params := InputParams_default;
     _session := Some 1%nat;
     _created_session := true;
     _settings := {[ "voice_id" := "v_8eelc901"; "output_format" := "WAV_22050_16" ]} |}.

(** The request [example_service] sends for a text. *)
Definition example_request (text : string) : Request :=
  mkRequest "https://api.upliftai.org/v1/synthesis/text-to-speech"
    {[ "text" := text; "voiceId" := "v_8eelc901"; "outputFormat" := "WAV_22050_16" ]}
    {[ "Authorization" := "Bearer sk_test"; "Content-Type" := "application/json" ]}.

(** A world in which every hook returns and the server answers [r]. *)
Definition env_answering (r : ClientResponse) : Env :=
  {| env_start_ttfb_metrics := Returns tt;
     env_post := λ _ _, Returns r;
     env_start_tts_usage_metrics := λ _, Returns tt;
     env_stop_ttfb_metrics := λ _, Returns tt |}.


Definition response_503 : ClientResponse :=
  {| resp_status := 503;
     resp_text := Returns "server overloaded";
     resp_read := Returns [] |}.

(** A 200 response whose body is a 44-byte header and then [audio]. *)
Definition response_200 (audio : list byte) : ClientResponse :=
  {| resp_status := 200;
     resp_text := Returns "";
     resp_read := Returns (repeat x00 44 ++ audio) |}.

(** A text of 2501 characters. *)
Definition long_text : string := join "" (repeat "a" 2501).

(** The world of the counterexample to C1: every hook returns and the server
    answers 503 with the body [server overloaded]. *)
Definition env_503 : Env := env_answering response_503.

(** [example_service] with a chunk size of 4 bytes. *)
Definition small_chunk_service : UpliftHttpTTSService :=
  with_base {| name := "UpliftHttpTTSService#0"; sample_rate := 22050; chunk_size := 4;
               _voice_id := "v_8eelc901" |} example_service.

(** [small_chunk_service] after [set_output_format("MP3_22050_32")]. *)
Definition small_chunk_mp3_service : UpliftHttpTTSService :=
  with_settings (<["output_format" := "MP3_22050_32"]> (_settings small_chunk_service))
    small_chunk_service.

Definition nine_bytes : list byte := [x01; x02; x03; x04; x05; x06; x07; x08; x09].

(** The arguments [api_key="sk_test", output_format="MP3_22050_32"]. *)
Definition mp3_args : Args :=
  {| api_key := "sk_test";
     base_url := "https://api.upliftai.org/v1/synthesis/text-to-speech";
     voice_id := "v_8eelc901";
     output_format := "MP3_22050_32";
     aiohttp_session := None;
     params := None |}.

(** ** Further readings of a trace, and the scoped use of the object *)

(** The texts handed to [start_tts_usage_metrics], in order. *)
Definition metered (t : list effect) : list string :=
  omap (λ x, match x with StartTtsUsageMetrics text => Some text | _ => None end) t.

(** The sessions [aiohttp.ClientSession()] created, in order. *)
Definition new_sessions (t : list effect) : list ClientSession :=
  omap (λ x, match x with NewSession s => Some s | _ => None end) t.


(** An audio frame as [run_tts] builds it on [self]: a non-empty chunk of at
    most [chunk_size] bytes, at the sample rate of the service, one channel.
    Other frames are not constrained. *)
Definition well_formed_frame (self : UpliftHttpTTSService) (f : Frame) : Prop :=
  match f with
  | TTSAudioRawFrame audio rate channels =>
      (0 < length audio ≤ chunk_size (base self))%nat ∧
      rate = sample_rate (base self) ∧ channels = 1%Z
  | _ => True
  end.

(** [async with self: body].  [__aenter__] gives the object itself, so the
    body runs on it; [__aexit__] runs whether the body returned or raised,
    and as it returns [None] an exception of the body is raised again after
    it. *)
Definition async_with (body : M unit) : M unit :=
  λ self,
    match __aenter__ self with
    | (self1, t1, Returns _) =>
        match body self1 with
        | (self2, t2, o2) =>
            match __aexit__ self2 with
            | (self3, t3, Returns _) => (self3, t1 ++ t2 ++ t3, o2)
            | (self3, t3, Raises e) => (self3, t1 ++ t2 ++ t3, Raises e)
            end
        end
    | (self1, t1, Raises e) => (self1, t1, Raises e)
    end.

(** The arguments [api_key="sk_test", aiohttp_session=session], for the
    session [9]. *)
Definition borrowed_args : Args :=
  {| api_key := "sk_test";
     base_url := "https://api.upliftai.org/v1/synthesis/text-to-speech";
     voice_id := "v_8eelc901";
     output_format := "WAV_22050_16";
     aiohttp_session := Some 9%nat;
     params := None |}.

(** The arguments [api_key="sk_test", voice_id="v_kwmp7zxt",
    output_format="MP3_22050_32", params=InputParams(voice_id="",
    output_format="OGG_22050_16")]. *)
Definition params_args : Args :=
  {| api_key := "sk_test";
     base_url := "https://api.upliftai.org/v1/synthesis/text-to-speech";
     voice_id := "v_kwmp7zxt";
     output_format := "MP3_22050_32";
     aiohttp_session := None;
     params := Some {| p_voice_id := Some ""; p_output_format := Some "OGG_22050_16" |} |}.

(** A world that answers 200 with a 44-byte header and [audio], in which
    [stop_ttfb_metrics] raises at the offset [i] of the loop. *)
Definition env_failing_at (audio : list byte) (i : nat) : Env :=
  {| env_start_ttfb_metrics := Returns tt;
     env_post := λ _ _, Returns (response_200 audio);
     env_start_tts_usage_metrics := λ _, Returns tt;
     env_stop_ttfb_metrics :=
       λ k, if decide (k = i) then Raises (mkException "RuntimeError" "metrics unavailable")
            else Returns tt |}.

(** A 502 response whose body cannot be decoded as text. *)
Definition response_unreadable : ClientResponse :=
  {| resp_status := 502;
     resp_text := Raises (mkException "UnicodeDecodeError" "invalid start byte");
     resp_read := Returns [] |}.

(** A world in which the request is cancelled while it is awaited:
    [asyncio.CancelledError] is raised at the [await]. *)
Definition env_cancelled : Env :=
  {| env_start_ttfb_metrics := Returns tt;
     env_post := λ _ _, Raises (mkException "CancelledError" "");
     env_start_tts_usage_metrics := λ _, Returns tt;
     env_stop_ttfb_metrics := λ _, Returns tt |}.

(** ** Proofs

    [run_step] unfolds one layer of the operations on computations. *)

Ltac run_step :=
  cbv beta iota zeta delta
    [bind call tell lift get put raise ret yield log push_error try_except];
  cbn [app].

(** ** Splitting a buffer into chunks *)

Section Chunks.
Context {A : Type}.
Implicit Types (c : list A) (N n k i : nat).

Lemma slice_chunk c i N : slice c i (i + N) = take N (drop i c).
Proof. unfold slice. f_equal. lia. Qed.

Lemma ceil_div_upper L N : (0 < N → L ≤ ceil_div L N * N)%nat.
Proof.
  intros HN. unfold ceil_div.
  pose proof (Nat.div_mod_eq (L + N - 1) N) as E.
  pose proof (Nat.mod_upper_bound (L + N - 1) N ltac:(lia)) as B.
  nia.
Qed.

Lemma ceil_div_lower L N : (0 < N → 0 < L → (ceil_div L N - 1) * N < L)%nat.
Proof.
  intros HN HL. unfold ceil_div.
  pose proof (Nat.div_mod_eq (L + N - 1) N) as E.
  nia.
Qed.

Lemma ceil_div_pos L N : (0 < N → 0 < L → 0 < ceil_div L N)%nat.
Proof.
  intros HN HL. pose proof (ceil_div_upper L N HN).
  destruct (ceil_div L N); lia.
Qed.

Lemma ceil_div_index L N k : (0 < N → k < ceil_div L N → k * N < L)%nat.
Proof.
  intros HN Hk.
  destruct (decide (L = 0)%nat) as [->|HL].
  - unfold ceil_div in Hk. rewrite Nat.div_small in Hk; lia.
  - pose proof (ceil_div_lower L N HN ltac:(lia)) as B.
    assert (k ≤ ceil_div L N - 1)%nat as Hle by lia.
    apply (Nat.mul_le_mono_r _ _ N) in Hle.
    eapply Nat.le_lt_trans; eassumption.
Qed.

Lemma range_Returns stop step :
  (0 < step)%nat →
  range stop step = Returns (map (λ k, k * step)%nat (seq 0 (ceil_div stop step))).
Proof. intros H. unfold range, ceil_div. destruct step; [lia | done]. Qed.

Lemma range_elem stop step idxs i :
  range stop step = Returns idxs → i ∈ idxs → (i < stop ∧ 0 < step)%nat.
Proof.
  unfold range. destruct step as [|s]; [done|].
  intros [= <-] Hi. apply list_elem_of_fmap in Hi as (k & -> & Hk).
  apply elem_of_seq in Hk. split; [|lia].
  apply ceil_div_index; [lia|]. exact (proj2 Hk).
Qed.

(** The first [n] chunks of size [N], glued together, are the first
    [n * N] elements. *)
Lemma concat_chunks_take c N n :
  concat (map (λ i, slice c i (i + N)) (map (λ k, k * N)%nat (seq 0 n))) = take (n * N) c.
Proof.
  induction n as [|n IH]; [done|].
  rewrite seq_S, !map_app, concat_app, IH. simpl.
  rewrite slice_chunk, app_nil_r, take_take_drop. f_equal. lia.
Qed.

Lemma concat_chunks c N :
  (0 < N)%nat →
  concat (map (λ i, slice c i (i + N)) (map (λ k, k * N)%nat (seq 0 (ceil_div (length c) N)))) = c.
Proof.
  intros HN. rewrite concat_chunks_take. apply take_ge.
  by apply ceil_div_upper.
Qed.

Lemma length_chunk c N k :
  length (slice c (k * N) (k * N + N)) = (N `min` (length c - k * N))%nat.
Proof. rewrite slice_chunk, length_take, length_drop. done. Qed.

End Chunks.

(** ** Reading a trace *)

Lemma events_app t1 t2 : events (t1 ++ t2) = events t1 ++ events t2.
Proof. apply omap_app. Qed.

Lemma published_app t1 t2 : published (t1 ++ t2) = published t1 ++ published t2.
Proof. apply omap_app. Qed.

Lemma posts_app t1 t2 : posts (t1 ++ t2) = posts t1 ++ posts t2.
Proof. apply omap_app. Qed.

Lemma logged_app lvl t1 t2 : logged lvl (t1 ++ t2) = logged lvl t1 ++ logged lvl t2.
Proof. apply omap_app. Qed.

Lemma audio_segments_app fs1 fs2 :
  audio_segments (fs1 ++ fs2) = audio_segments fs1 ++ audio_segments fs2.
Proof. apply omap_app. Qed.

(** ** The streaming loop *)

Section Loop.
Variables (env : Env) (c : list byte) (N : nat).

Lemma run_tts_loop_shape idxs self :
  ∃ t o, run_tts_loop env c N idxs self = (self, t, o) ∧ Forall (loop_effect self) t.
Proof.
  induction idxs as [|i rest IH]; simpl.
  - by exists [], (Returns tt).
  - destruct (slice c i (i + N)) as [|b chunk] eqn:Hs.
    + by exists [], (Returns tt).
    + destruct IH as (t & o & E & F).
      unfold bind, call, tell, lift, get, yield. simpl.
      destruct (env_stop_ttfb_metrics env i) as [[]|e]; simpl.
      * rewrite E. eexists _, _. split; [reflexivity|].
        constructor; [by left|]. constructor; [|done].
        right. exists (b :: chunk). done.
      * eexists _, _. split; [reflexivity|]. constructor; [by left|done].
Qed.

Lemma run_tts_loop_nil self : run_tts_loop env c N [] self = (self, [], Returns tt).
Proof. done. Qed.

(** A loop that ends without an exception has yielded one frame per
    offset, each with its slice of the content. *)
Lemma run_tts_loop_Returns idxs self t :
  (∀ i, i ∈ idxs → (i < length c)%nat) → (0 < N)%nat →
  run_tts_loop env c N idxs self = (self, t, Returns tt) →
  events t = map (λ i, audio_frame self (slice c i (i + N))) idxs.
Proof.
  intros Hin HN. revert t.
  induction idxs as [|i rest IH]; simpl; intros t.
  - by intros [= <-].
  - assert (length (slice c i (i + N)) ≠ 0)%nat as Hlen.
    { rewrite slice_chunk, length_take, length_drop.
      specialize (Hin i ltac:(by left)). lia. }
    destruct (slice c i (i + N)) as [|b chunk] eqn:Hs; [done|].
    unfold bind, call, tell, lift, get, yield. simpl.
    destruct (env_stop_ttfb_metrics env i) as [[]|e]; simpl; [|done].
    destruct (run_tts_loop_shape rest self) as (t' & o' & E & _).
    rewrite E. intros [= <- ->]. simpl. f_equal.
    apply IH; [|done]. intros j Hj. apply Hin. by right.
Qed.

(** When no metric hook raises, the loop runs to its end. *)
Lemma run_tts_loop_total idxs self :
  (∀ i, i ∈ idxs → env_stop_ttfb_metrics env i = Returns tt) →
  result_of (run_tts_loop env c N idxs self) = Returns tt.
Proof.
  intros Hok.
  induction idxs as [|i rest IH]; simpl; [done|].
  destruct (slice c i (i + N)) as [|b chunk]; [done|].
  unfold bind, call, tell, lift, get, yield. simpl.
  rewrite (Hok i ltac:(by left)). simpl.
  destruct (run_tts_loop_shape rest self) as (t' & o' & E & _).
  rewrite E in IH |- *. simpl. apply IH. intros j Hj. apply Hok. by right.
Qed.

Lemma loop_effect_events self t :
  Forall (loop_effect self) t →
  Forall (λ f, ∃ chunk, chunk ≠ [] ∧ f = audio_frame self chunk) (events t).
Proof.
  induction 1 as [|x t [->|(chunk & Hne & ->)] _ IH]; simpl; [done|done|].
  constructor; [by exists chunk | done].
Qed.

Lemma loop_effect_published self t : Forall (loop_effect self) t → published t = [].
Proof. induction 1 as [|x t [->|(chunk & Hne & ->)] _ IH]; done. Qed.

Lemma loop_effect_posts self t : Forall (loop_effect self) t → posts t = [].
Proof. induction 1 as [|x t [->|(chunk & Hne & ->)] _ IH]; done. Qed.

Lemma loop_effect_logged lvl self t : Forall (loop_effect self) t → logged lvl t = [].
Proof. induction 1 as [|x t [->|(chunk & Hne & ->)] _ IH]; done. Qed.

End Loop.

(** ** Every run takes one of the paths *)

Lemma run_tts_try_path env text self :
  ∃ t o, run_tts_try env text self = (self, t, o) ∧ try_path env text self t o.
Proof.
  unfold run_tts_try, getitem. run_step.
  destruct (env_start_ttfb_metrics env) as [[]|e]; run_step;
    [|eexists _, _; split; [reflexivity|constructor]].
  destruct (_settings self !! "voice_id") as [voice|] eqn:Hv; run_step;
    [|eexists _, _; split; [reflexivity|constructor]].
  destruct (_settings self !! "output_format") as [format|] eqn:Hf; run_step;
    [|eexists _, _; split; [reflexivity|constructor]].
  destruct (_session self) as [s|] eqn:Hs; run_step;
    [|eexists _, _; split; [reflexivity|constructor]].
  set (req := mkRequest _ _ _).
  assert (sends self text s req) as Hsends by (by exists voice, format).
  destruct (env_post env s req) as [r|e] eqn:Hpost; run_step.
  2: { eexists _, _; split; [reflexivity|].
       apply path_sent; [done|]. rewrite Hpost. constructor. }
  destruct (resp_status r =? 200)%Z eqn:Hst; cbn [negb]; run_step.
  - apply Z.eqb_eq in Hst.
    destruct (resp_read r) as [audio_bytes|e] eqn:Hread; run_step.
    2: { eexists _, _; split; [reflexivity|].
         apply path_sent; [done|]. rewrite Hpost. by apply rp_read_raises. }
    destruct (env_start_tts_usage_metrics env text) as [[]|e] eqn:Hu; run_step.
    2: { eexists _, _; split; [reflexivity|].
         apply path_sent; [done|]. rewrite Hpost. by eapply rp_usage_raises. }
    rewrite Hf. run_step.
    destruct (startswith format "WAV_") eqn:Hsw; run_step.
    all: match goal with
         | |- context [range (length ?c) _] =>
             set (content := c);
             assert (content = audio_content format audio_bytes) as Hc
               by (subst content; unfold audio_content; by rewrite Hsw);
             clearbody content
         end.
    all: destruct (range (length content) (chunk_size (base self))) as [idxs|e] eqn:Hr;
      run_step;
      [|eexists _, _; split; [reflexivity|];
        apply path_sent; [done|]; rewrite Hpost; by eapply rp_range_raises].
    all: destruct (run_tts_loop_shape env content (chunk_size (base self)) idxs self)
      as (t_loop & o_loop & Hloop & _);
      rewrite Hloop; destruct o_loop as [[]|e]; run_step;
      eexists _, _; (split; [reflexivity|]);
      (apply path_sent; [done|]); rewrite Hpost;
      [by eapply rp_streamed | by eapply rp_interrupted].
  - apply Z.eqb_neq in Hst.
    destruct (resp_text r) as [body|e] eqn:Htext; run_step.
    + eexists _, _; split; [reflexivity|].
      apply path_sent; [done|]. rewrite Hpost. by apply rp_http_error.
    + eexists _, _; split; [reflexivity|].
      apply path_sent; [done|]. rewrite Hpost. by apply rp_http_error_unreadable.
Qed.

(** [run_tts] as a whole: the debug line, the validation of the text, the
    [try] block on the text that is sent, and the [except] block when the
    [try] block raised an [Exception].  The generator leaves the object as
    it was, and ends normally unless an exception that is not an [Exception]
    goes through. *)
Lemma run_tts_path env text self :
  ∃ t o,
    run_tts_try env (transmitted text) self = (self, t, o) ∧
    try_path env (transmitted text) self t o ∧
    run_tts env text self =
      (self,
       Log DEBUG (name (base self) +:+ ": Generating TTS [" +:+ text +:+ "]") ::
         validation_trace text ++ t ++ except_trace o,
       run_result o).
Proof.
  destruct (run_tts_try_path env (transmitted text) self) as (t & o & E & P).
  exists t, o. split; [done|]. split; [done|].
  unfold run_tts, run_tts_validate, run_tts_except, transmitted, validation_trace in *.
  run_step.
  destruct (2500 <? len text)%nat; run_step; rewrite E; destruct o as [[]|e];
    cbn [except_trace run_result]; try destruct (is_Exception e); run_step;
    by rewrite ?app_nil_r.
Qed.

Lemma validation_trace_events text : events (validation_trace text) = [].
Proof. unfold validation_trace. by destruct (2500 <? len text)%nat. Qed.

Lemma validation_trace_published text : published (validation_trace text) = [].
Proof. unfold validation_trace. by destruct (2500 <? len text)%nat. Qed.

Lemma validation_trace_posts text : posts (validation_trace text) = [].
Proof. unfold validation_trace. by destruct (2500 <? len text)%nat. Qed.

Lemma except_trace_posts o : posts (except_trace o) = [].
Proof. destruct o as [|e]; [done|]. cbn. by destruct (is_Exception e). Qed.

Lemma loop_trace_shape env content N idxs self t o :
  run_tts_loop env content N idxs self = (self, t, o) → Forall (loop_effect self) t.
Proof.
  intros E. destruct (run_tts_loop_shape env content N idxs self) as (t' & o' & E' & F).
  rewrite E in E'. by injection E' as -> ->.
Qed.

Lemma response_path_posts env text self a t o :
  response_path env text self a t o → posts t = [].
Proof.
  destruct 1; try done; simpl; rewrite ?posts_app; simpl.
  all: by erewrite loop_effect_posts by (by eapply loop_trace_shape).
Qed.

(** What the trace of [run_tts] shows, in terms of the [try] block. *)
Lemma run_tts_observed env text self :
  ∃ t o,
    run_tts_try env (transmitted text) self = (self, t, o) ∧
    try_path env (transmitted text) self t o ∧
    self_of (run_tts env text self) = self ∧
    result_of (run_tts env text self) = run_result o ∧
    events (trace_of (run_tts env text self)) = events t ++ events (except_trace o) ∧
    published (trace_of (run_tts env text self)) = published t ++ published (except_trace o) ∧
    posts (trace_of (run_tts env text self)) = posts t ∧
    logged WARNING (trace_of (run_tts env text self)) =
      logged WARNING (validation_trace text) ++ logged WARNING t.
Proof.
  destruct (run_tts_path env text self) as (t & o & E & P & R).
  exists t, o. rewrite R. unfold self_of, result_of, trace_of. cbn [fst snd].
  repeat split; try done.
  - cbn. by rewrite !events_app, validation_trace_events.
  - cbn. by rewrite !published_app, validation_trace_published.
  - cbn. by rewrite !posts_app, validation_trace_posts, except_trace_posts, app_nil_r.
  - match goal with
    | |- logged _ (?x :: ?l) = _ => change (x :: l) with ([x] ++ l)
    end.
    rewrite !logged_app.
    assert (logged WARNING (except_trace o) = []) as ->
      by (destruct o as [|e]; [done|]; cbn; by destruct (is_Exception e)).
    by rewrite app_nil_r.
Qed.

(** A run that received a response sent exactly one request, and went on
    from that response. *)
Lemma run_tts_response env text self r :
  http_response env (trace_of (run_tts env text self)) r →
  ∃ s req t o,
    sends self (transmitted text) s req ∧
    env_post env s req = Returns r ∧
    response_path env (transmitted text) self (Returns r) t o ∧
    run_tts_try env (transmitted text) self = (self, StartTtfbMetrics :: Post s req :: t, o) ∧
    posts (trace_of (run_tts env text self)) = [(s, req)] ∧
    events (trace_of (run_tts env text self)) = events t ++ events (except_trace o) ∧
    published (trace_of (run_tts env text self)) = published t ++ published (except_trace o).
Proof.
  intros (s & req & Hin & Hpost).
  destruct (run_tts_observed env text self) as (t & o & E & P & _ & _ & Hev & Hpub & Hposts & _).
  rewrite Hposts in Hin. rewrite Hev, Hpub, Hposts. clear Hev Hpub Hposts.
  destruct P as [e|s' req' t' o' Hsends HP]; [by apply elem_of_nil in Hin|].
  assert (posts (StartTtfbMetrics :: Post s' req' :: t') = [(s', req')]) as Hone.
  { change ((s', req') :: posts t' = [(s', req')]).
    by rewrite (response_path_posts _ _ _ _ _ _ HP). }
  rewrite Hone in Hin |- *.
  apply list_elem_of_singleton in Hin as [= -> ->].
  rewrite Hpost in HP.
  exists s', req', t', o'. by repeat split.
Qed.

(** ** Strings *)

Lemma str_app_assoc (a b c : string) : (a +:+ b) +:+ c = a +:+ b +:+ c.
Proof.
  induction a as [|x a IH]; [done|].
  change (String x ((a +:+ b) +:+ c) = String x (a +:+ b +:+ c)). by rewrite IH.
Qed.

Lemma str_app_nil_r (a : string) : a +:+ "" = a.
Proof.
  induction a as [|x a IH]; [done|].
  change (String x (a +:+ "") = String x a). by rewrite IH.
Qed.

Lemma str_upto_length n s : len (str_upto n s) = (n `min` len s)%nat.
Proof.
  unfold len, str_upto. revert n.
  induction s as [|x s IH]; intros [|n]; simpl; try done.
  by rewrite IH.
Qed.

Lemma str_upto_prefix n s : ∃ rest, s = str_upto n s +:+ rest.
Proof.
  unfold str_upto. revert n.
  induction s as [|x s IH]; intros [|n]; simpl.
  - by exists "".
  - by exists "".
  - by exists (String x s).
  - destruct (IH n) as [rest E]. exists rest.
    change (String x s = String x (String.substring 0 n s +:+ rest)). by rewrite <- E.
Qed.

Lemma transmitted_length text : len (transmitted text) = (len text `min` 2500)%nat.
Proof.
  unfold transmitted. destruct (Nat.ltb_spec 2500 (len text)).
  - rewrite str_upto_length. lia.
  - lia.
Qed.

Lemma transmitted_prefix text : ∃ rest, text = transmitted text +:+ rest.
Proof.
  unfold transmitted. destruct (2500 <? len text)%nat.
  - apply str_upto_prefix.
  - exists "". by rewrite str_app_nil_r.
Qed.

Lemma contains_middle (a b c : string) : contains (a +:+ b +:+ c) b.
Proof. by exists a, c. Qed.

Lemma contains_end (a b : string) : contains (a +:+ b) b.
Proof. exists a, "". by rewrite str_app_nil_r. Qed.

Lemma http_error_message_status status body :
  contains (http_error_message status body) (pretty status).
Proof. apply contains_middle. Qed.

Lemma http_error_message_body status body :
  contains (http_error_message status body) body.
Proof.
  unfold http_error_message.
  rewrite <- !str_app_assoc. apply contains_end.
Qed.

(** ** Warnings *)

Lemma response_path_logged_warning env text self a t o :
  response_path env text self a t o → logged WARNING t = [].
Proof.
  destruct 1; try done.
  - change (logged WARNING t_loop = []).
    by erewrite loop_effect_logged by (by eapply loop_trace_shape).
  - change (logged WARNING (t_loop ++ [Yield TTSStoppedFrame]) = []).
    rewrite logged_app.
    by erewrite loop_effect_logged by (by eapply loop_trace_shape).
Qed.

Lemma try_path_logged_warning env text self t o :
  try_path env text self t o → logged WARNING t = [].
Proof.
  destruct 1 as [e|s req t o _ HP]; [done|].
  change (logged WARNING t = []). by eapply response_path_logged_warning.
Qed.

Lemma sends_text self text s req :
  sends self text s req → req_json req !! "text" = Some text.
Proof. intros (voice & format & _ & _ & _ & ->). simpl. apply lookup_insert_eq. Qed.

(** The request of a run, when there is one, is the one [sends] describes. *)
Lemma run_tts_posts env text self s req :
  (s, req) ∈ posts (trace_of (run_tts env text self)) →
  sends self (transmitted text) s req.
Proof.
  destruct (run_tts_observed env text self) as (t & o & _ & P & _ & _ & _ & _ & -> & _).
  destruct P as [e|s' req' t' o' Hsends HP]; [by intros ?%elem_of_nil|].
  change (posts (StartTtfbMetrics :: Post s' req' :: t')) with ((s', req') :: posts t').
  rewrite (response_path_posts _ _ _ _ _ _ HP).
  by intros [= -> ->]%list_elem_of_singleton.
Qed.

(** ** The text that is sent *)

(** C4: the [text] field of the JSON body of a request is the first
    [min(len(text), 2500)] characters of the input: the input itself when it
    has at most 2500 characters, and otherwise its first 2500 characters,
    with one warning logged and no exception. *)
Theorem C4_transmitted_text env text self s req :
  (s, req) ∈ posts (trace_of (run_tts env text self)) →
  req_json req !! "text" = Some (transmitted text) ∧
  len (transmitted text) = (len text `min` 2500)%nat ∧
  (∃ rest, text = transmitted text +:+ rest) ∧
  ((len text ≤ 2500)%nat →
     transmitted text = text ∧
     logged WARNING (trace_of (run_tts env text self)) = []) ∧
  ((2500 < len text)%nat →
     len (transmitted text) = 2500%nat ∧
     transmitted text = str_upto 2500 text ∧
     logged WARNING (trace_of (run_tts env text self)) = [truncation_message text] ∧
     run_tts_validate text self =
       (self, [Log WARNING (truncation_message text)], Returns (transmitted text))).
Proof.
  intros Hin.
  split; [by eapply sends_text, run_tts_posts|].
  split; [apply transmitted_length|].
  split; [apply transmitted_prefix|].
  destruct (run_tts_observed env text self) as (t & o & _ & P & _ & _ & _ & _ & _ & ->).
  rewrite (try_path_logged_warning _ _ _ _ _ P), app_nil_r.
  pose proof (transmitted_length text) as Hlen.
  unfold run_tts_validate, validation_trace, transmitted in *.
  split; intros H.
  - destruct (Nat.ltb_spec 2500 (len text)); [lia|done].
  - destruct (Nat.ltb_spec 2500 (len text)); [|lia].
    split; [lia|]. done.
Qed.

(** C4 at a text of 2501 characters, for which the server answers 503. *)
Lemma C4_transmitted_text_witness :
  req_json (example_request (transmitted long_text)) !! "text" = Some (str_upto 2500 long_text) ∧
  len (transmitted long_text) = 2500%nat.
Proof.
  destruct (C4_transmitted_text (env_answering response_503) long_text example_service
              1%nat (example_request (transmitted long_text))) as (H1 & _ & _ & _ & H2).
  - vm_compute. left.
  - destruct H2 as (H2 & H3 & _); [vm_compute; lia|].
    split; [|exact H2]. by rewrite <- H3.
Defined.

(** ** The frames of a run *)

Lemma loop_events_chunks self fs :
  Forall (λ f, ∃ chunk, chunk ≠ [] ∧ f = audio_frame self chunk) fs →
  ∃ chunks, fs = map (audio_frame self) chunks ∧ Forall (λ chunk, chunk ≠ []) chunks.
Proof.
  induction 1 as [|f fs (chunk & Hne & ->) _ (chunks & -> & IH)].
  - by exists [].
  - exists (chunk :: chunks). split; [done|]. by constructor.
Qed.

Lemma loop_trace_chunks env content N idxs self t o :
  run_tts_loop env content N idxs self = (self, t, o) →
  ∃ chunks, events t = map (audio_frame self) chunks ∧ Forall (λ chunk, chunk ≠ []) chunks.
Proof.
  intros E. eapply loop_events_chunks, loop_effect_events, loop_trace_shape, E.
Qed.

(** The frames of the [try] block after the request.  Either the answer
    does not let the stream start: then the block yields the error frame of
    a non-200 response and returns, or it raises having yielded nothing.  Or
    the stream starts: then the block yields the started marker and audio
    frames with non-empty chunks, and either the stopped marker as it
    returns, or nothing more as it raises. *)
Lemma response_path_events env text self a t o :
  response_path env text self a t o →
  (¬ streams env text a ∧
   published t = events t ∧
   ((o = Returns tt ∧
     ∃ r m, a = Returns r ∧ resp_status r ≠ 200%Z ∧ events t = [ErrorFrame m]) ∨
    (∃ e, o = Raises e ∧ events t = [])))
  ∨
  (streams env text a ∧
   ∃ chunks, Forall (λ chunk, chunk ≠ []) chunks ∧
     published t = [] ∧
     ((o = Returns tt ∧
       events t = TTSStartedFrame :: map (audio_frame self) chunks ++ [TTSStoppedFrame])
      ∨
      (∃ e, o = Raises e ∧
         events t = TTSStartedFrame :: map (audio_frame self) chunks))).
Proof.
  destruct 1 as [e|r body Hst Ht|r e Hst Ht|r e Hst Hr|r ab e Hst Hr Hu
                |r ab fmt content note e Hst Hr Hu Hf Hc Hrange
                |r ab fmt content note idxs t_loop e Hst Hr Hu Hf Hc Hrange Hloop
                |r ab fmt content note idxs t_loop Hst Hr Hu Hf Hc Hrange Hloop].
  - left. split; [by intros (r & ab & [=] & _)|]. split; [done|]. right. by exists e.
  - left. split; [by intros (r' & ab & [= <-] & ? & _)|]. split; [done|].
    left. split; [done|]. by eexists r, _.
  - left. split; [by intros (r' & ab & [= <-] & ? & _)|]. split; [done|].
    right. by exists e.
  - left. split; [intros (r' & ab & [= <-] & _ & ? & _); congruence|].
    split; [done|]. right. by exists e.
  - left. split; [intros (r' & ab' & [= <-] & _ & _ & ?); congruence|].
    split; [done|]. right. by exists e.
  - right. split; [by exists r, ab|]. exists []. split; [done|]. split; [done|].
    right. by exists e.
  - right. split; [by exists r, ab|].
    destruct (loop_trace_chunks _ _ _ _ _ _ _ Hloop) as (chunks & Hev & Hne).
    exists chunks. split; [done|]. split.
    + change (published t_loop = []).
      by erewrite loop_effect_published by (by eapply loop_trace_shape).
    + right. exists e. split; [done|].
      change (TTSStartedFrame :: events t_loop =
              TTSStartedFrame :: map (audio_frame self) chunks).
      by rewrite Hev.
  - right. split; [by exists r, ab|].
    destruct (loop_trace_chunks _ _ _ _ _ _ _ Hloop) as (chunks & Hev & Hne).
    exists chunks. split; [done|]. split.
    + change (published (t_loop ++ [Yield TTSStoppedFrame]) = []).
      rewrite published_app.
      by erewrite loop_effect_published by (by eapply loop_trace_shape).
    + left. split; [done|].
      change (TTSStartedFrame :: events (t_loop ++ [Yield TTSStoppedFrame]) =
              TTSStartedFrame :: map (audio_frame self) chunks ++ [TTSStoppedFrame]).
      by rewrite events_app, Hev.
Qed.

(** What the [except] block yields and hands to [push_error]. *)
Lemma except_trace_events e :
  events (except_trace (Raises e)) =
    (if is_Exception e then [ErrorFrame (generation_error_message e)] else []) ∧
  published (except_trace (Raises e)) =
    (if is_Exception e then [ErrorFrame (generation_error_message e)] else []).
Proof. cbn. by destruct (is_Exception e). Qed.


Lemma http_response_unique env t s req r :
  posts t = [(s, req)] → http_response env t r → env_post env s req = Returns r.
Proof.
  intros Hposts (s' & req' & Hin & Hr). rewrite Hposts in Hin.
  by apply list_elem_of_singleton in Hin as [= -> ->].
Qed.


(** ** The started and stopped markers *)



(** ** Errors *)

(** C2: when the response has a status other than 200 (and its body reads
    as text), the run yields exactly one frame, an error frame; so no audio
    frame and no stopped marker.  The same error frame, once, goes to
    [push_error], and its message contains the status code and the body. *)
Theorem C2_http_error env text self r body :
  http_response env (trace_of (run_tts env text self)) r →
  resp_status r ≠ 200%Z →
  resp_text r = Returns body →
  (let message := http_error_message (resp_status r) body in
   events (trace_of (run_tts env text self)) = [ErrorFrame message] ∧
   published (trace_of (run_tts env text self)) = [ErrorFrame message] ∧
   audio_segments (events (trace_of (run_tts env text self))) = [] ∧
   (TTSStoppedFrame ∉ events (trace_of (run_tts env text self))) ∧
   contains message (pretty (resp_status r)) ∧
   contains message body).
Proof.
  intros Hr Hst Ht message.
  destruct (run_tts_response env text self r Hr)
    as (s & req & t & o & _ & _ & HP & _ & _ & -> & ->).
  assert (t = [Log ERROR message; PushError (ErrorFrame message); Yield (ErrorFrame message)]
          ∧ o = Returns tt) as [-> ->].
  { inversion HP; subst; try congruence.
    replace body0 with body by congruence. done. }
  split; [done|]. split; [done|]. split; [done|].
  split; [by intros [=]%list_elem_of_singleton|].
  split; [apply http_error_message_status | apply http_error_message_body].
Qed.

(** C2 at the 503 response with body [server overloaded]. *)
Lemma C2_http_error_witness :
  events (trace_of (run_tts env_503 "0123456789" example_service)) =
    [ErrorFrame "Uplift HTTP TTS error: 503 - server overloaded"] ∧
  published (trace_of (run_tts env_503 "0123456789" example_service)) =
    [ErrorFrame "Uplift HTTP TTS error: 503 - server overloaded"].
Proof.
  destruct (C2_http_error env_503 "0123456789" example_service response_503
              "server overloaded") as (H1 & H2 & _).
  - exists 1%nat, (example_request "0123456789"). split; [vm_compute; left|reflexivity].
  - vm_compute. discriminate.
  - reflexivity.
  - split; [exact H1|exact H2].
Defined.





(** ** Streaming *)

Lemma audio_segments_frames self chunks :
  audio_segments (map (audio_frame self) chunks) = chunks.
Proof. induction chunks as [|c chunks IH]; [done|]. simpl. by rewrite IH. Qed.

Lemma chunks_of_offsets {A} (c : list A) N :
  map (λ i, slice c i (i + N)) (map (λ k, k * N)%nat (seq 0 (ceil_div (length c) N)))
  = chunks_of c N.
Proof. unfold chunks_of. by rewrite map_map. Qed.

Lemma chunks_of_concat {A} (c : list A) N : (0 < N)%nat → concat (chunks_of c N) = c.
Proof. intros HN. rewrite <- chunks_of_offsets. by apply concat_chunks. Qed.

Lemma chunks_of_length {A} (c : list A) N : length (chunks_of c N) = ceil_div (length c) N.
Proof. unfold chunks_of. by rewrite length_map, length_seq. Qed.

Lemma chunks_of_lookup {A} (c : list A) N j seg :
  chunks_of c N !! j = Some seg →
  seg = slice c (j * N) (j * N + N) ∧ (j < ceil_div (length c) N)%nat.
Proof.
  unfold chunks_of. rewrite list_lookup_fmap.
  destruct (seq 0 (ceil_div (length c) N) !! j) as [k|] eqn:Hk; [|done].
  apply lookup_seq in Hk as [-> Hlt]. by intros [= <-].
Qed.

Lemma chunks_of_nil {A} N : (0 < N)%nat → chunks_of (@nil A) N = [].
Proof.
  intros HN. unfold chunks_of, ceil_div. simpl.
  by rewrite Nat.div_small by lia.
Qed.

(** A call that succeeds fully has yielded the started marker, one audio
    frame per chunk of the audio content, and the stopped marker. *)
Lemma run_tts_streamed env text self r :
  succeeds_fully env text self →
  http_response env (trace_of (run_tts env text self)) r →
  ∃ audio_bytes format,
    resp_status r = 200%Z ∧
    resp_read r = Returns audio_bytes ∧
    _settings self !! "output_format" = Some format ∧
    (0 < chunk_size (base self))%nat ∧
    events (trace_of (run_tts env text self)) =
      TTSStartedFrame ::
        map (audio_frame self)
          (chunks_of (audio_content format audio_bytes) (chunk_size (base self))) ++
        [TTSStoppedFrame].
Proof.
  intros (Ho & r' & Hr' & Hst) Hr.
  destruct (run_tts_response env text self r Hr)
    as (s & req & t & o & _ & Hpost & HP & E & Hone & -> & _).
  apply (http_response_unique _ _ _ _ _ Hone) in Hr'.
  assert (r' = r) as -> by congruence.
  rewrite E in Ho. unfold result_of in Ho. cbn [snd] in Ho. subst o.
  inversion HP as [| ? ? Hne | | | | | |
                   ? ab fmt content note idxs t_loop _ Hread Hu Hf Hc Hrange Hloop];
    subst; [done|].
  exists ab, fmt. repeat (split; [done|]).
  assert (0 < chunk_size (base self))%nat as HN.
  { destruct (chunk_size (base self)); [done|lia]. }
  split; [done|].
  change (TTSStartedFrame :: events (t_loop ++ [Yield TTSStoppedFrame]) ++ [] = 
          TTSStartedFrame ::
            map (audio_frame self)
              (chunks_of (audio_content fmt ab) (chunk_size (base self))) ++
            [TTSStoppedFrame]).
  rewrite app_nil_r, events_app. f_equal. f_equal.
  rewrite (run_tts_loop_Returns _ _ _ _ _ _ (λ i Hi, proj1 (range_elem _ _ _ _ Hrange Hi))
             HN Hloop).
  rewrite range_Returns in Hrange by done. injection Hrange as <-.
  by rewrite <- chunks_of_offsets, !map_map.
Qed.

(** C5: in a call that succeeds fully, the audio segments yielded, glued
    together in order, are the response body without its first 44 bytes when
    the format starts with [WAV_], each segment being a slice of the body at
    an offset of 44 or more; for any other format they are the whole body. *)
Theorem C5_segments_concat env text self r audio_bytes format :
  succeeds_fully env text self →
  http_response env (trace_of (run_tts env text self)) r →
  resp_read r = Returns audio_bytes →
  _settings self !! "output_format" = Some format →
  (let segments := audio_segments (events (trace_of (run_tts env text self))) in
   let N := chunk_size (base self) in
   (startswith format "WAV_" = true →
      concat segments = drop 44 audio_bytes ∧
      audio_bytes = take 44 audio_bytes ++ concat segments ∧
      ∀ j seg, segments !! j = Some seg →
               seg = slice audio_bytes (44 + j * N) (44 + j * N + N)) ∧
   (startswith format "WAV_" = false → concat segments = audio_bytes)).
Proof.
  intros Hok Hr Hread Hf.
  destruct (run_tts_streamed env text self r Hok Hr)
    as (ab & fmt & _ & Hread' & Hf' & HN & ->).
  assert (ab = audio_bytes) as -> by congruence.
  assert (fmt = format) as -> by congruence.
  cbn zeta. rewrite app_comm_cons.
  change (audio_segments ((TTSStartedFrame :: ?l) ++ [TTSStoppedFrame]))
    with (audio_segments (l ++ [TTSStoppedFrame])).
  rewrite audio_segments_app, audio_segments_frames. cbn [audio_segments omap].
  rewrite app_nil_r. unfold audio_content.
  split; intros ->.
  - rewrite chunks_of_concat by done. split; [done|].
    split; [by rewrite take_drop|].
    intros j seg [-> _]%chunks_of_lookup.
    rewrite !slice_chunk, drop_drop. done.
  - by apply chunks_of_concat.
Qed.

(** C5 at a [WAV_] format and at an [MP3_] format, with chunks of 4 bytes. *)
Lemma C5_segments_concat_witness :
  concat (audio_segments (events (trace_of
    (run_tts (env_answering (response_200 nine_bytes)) "0123456789" small_chunk_service))))
  = nine_bytes ∧
  concat (audio_segments (events (trace_of
    (run_tts (env_answering (response_200 nine_bytes)) "0123456789" small_chunk_mp3_service))))
  = repeat x00 44 ++ nine_bytes.
Proof.
  split.
  - destruct (C5_segments_concat (env_answering (response_200 nine_bytes)) "0123456789"
                small_chunk_service (response_200 nine_bytes)
                (repeat x00 44 ++ nine_bytes) "WAV_22050_16") as [H _].
    + split; [vm_compute; reflexivity|].
      exists (response_200 nine_bytes). split; [|reflexivity].
      exists 1%nat, (example_request "0123456789"). split; [vm_compute; left|reflexivity].
    + exists 1%nat, (example_request "0123456789"). split; [vm_compute; left|reflexivity].
    + reflexivity.
    + vm_compute. reflexivity.
    + destruct H as [H _]; [reflexivity|]. exact H.
  - destruct (C5_segments_concat (env_answering (response_200 nine_bytes)) "0123456789"
                small_chunk_mp3_service (response_200 nine_bytes)
                (repeat x00 44 ++ nine_bytes) "MP3_22050_32") as [_ H].
    + split; [vm_compute; reflexivity|].
      exists (response_200 nine_bytes). split; [|reflexivity].
      eexists 1%nat, _. split; [vm_compute; left|reflexivity].
    + eexists 1%nat, _. split; [vm_compute; left|reflexivity].
    + reflexivity.
    + vm_compute. reflexivity.
    + apply H. reflexivity.
Defined.

(** C6: in a call that succeeds fully on a non-empty audio content of
    length [L], with a chunk size [N > 0], the audio frames yielded are the
    [ceil(L / N)] consecutive slices of [N] bytes of the content, in order:
    glued together they are the content, each is non-empty and of at most
    [N] bytes, and each but the last has exactly [N] bytes. *)
Theorem C6_segment_count_and_sizes env text self r audio_bytes format :
  succeeds_fully env text self →
  http_response env (trace_of (run_tts env text self)) r →
  resp_read r = Returns audio_bytes →
  _settings self !! "output_format" = Some format →
  audio_content format audio_bytes ≠ [] →
  (0 < chunk_size (base self))%nat →
  (let content := audio_content format audio_bytes in
   let N := chunk_size (base self) in
   let L := length content in
   let segments := audio_segments (events (trace_of (run_tts env text self))) in
   events (trace_of (run_tts env text self)) =
     TTSStartedFrame :: map (audio_frame self) segments ++ [TTSStoppedFrame] ∧
   length segments = ceil_div L N ∧
   (L ≤ ceil_div L N * N ∧ (ceil_div L N - 1) * N < L)%nat ∧
   concat segments = content ∧
   ∀ j seg, segments !! j = Some seg →
     seg = slice content (j * N) (j * N + N) ∧
     (0 < length seg ≤ N)%nat ∧
     ((j + 1 < length segments)%nat → length seg = N)).
Proof.
  intros Hok Hr Hread Hf Hne HN.
  destruct (run_tts_streamed env text self r Hok Hr)
    as (ab & fmt & _ & Hread' & Hf' & _ & Hev).
  assert (ab = audio_bytes) as -> by congruence.
  assert (fmt = format) as -> by congruence.
  cbn zeta.
  set (content := audio_content format audio_bytes) in *.
  set (N := chunk_size (base self)) in *.
  assert (audio_segments (events (trace_of (run_tts env text self))) = chunks_of content N)
    as ->.
  { rewrite Hev, app_comm_cons.
    change (audio_segments ((TTSStartedFrame :: ?l) ++ [TTSStoppedFrame]))
      with (audio_segments (l ++ [TTSStoppedFrame])).
    rewrite audio_segments_app, audio_segments_frames. apply app_nil_r. }
  assert (0 < length content)%nat as HL by (destruct content; [done|simpl; lia]).
  split; [done|]. split; [apply chunks_of_length|].
  split; [split; [by apply ceil_div_upper|by apply ceil_div_lower]|].
  split; [by apply chunks_of_concat|].
  intros j seg [-> Hj]%chunks_of_lookup.
  split; [done|].
  pose proof (ceil_div_index _ _ _ HN Hj) as Hlt.
  rewrite length_chunk, chunks_of_length.
  split; [lia|]. intros Hnext.
  assert ((j + 1) * N < length content)%nat by (by apply ceil_div_index).
  lia.
Qed.

(** C6 at nine bytes of audio and chunks of 4 bytes: three segments, of 4, 4
    and 1 bytes. *)
Lemma C6_segment_count_and_sizes_witness :
  length (audio_segments (events (trace_of
    (run_tts (env_answering (response_200 nine_bytes)) "0123456789" small_chunk_service))))
  = 3%nat ∧
  concat (audio_segments (events (trace_of
    (run_tts (env_answering (response_200 nine_bytes)) "0123456789" small_chunk_service))))
  = nine_bytes.
Proof.
  destruct (C6_segment_count_and_sizes (env_answering (response_200 nine_bytes))
              "0123456789" small_chunk_service (response_200 nine_bytes)
              (repeat x00 44 ++ nine_bytes) "WAV_22050_16") as (_ & H1 & _ & H2 & _).
  - split; [vm_compute; reflexivity|].
    exists (response_200 nine_bytes). split; [|reflexivity].
    exists 1%nat, (example_request "0123456789"). split; [vm_compute; left|reflexivity].
  - exists 1%nat, (example_request "0123456789"). split; [vm_compute; left|reflexivity].
  - reflexivity.
  - vm_compute. reflexivity.
  - vm_compute. discriminate.
  - vm_compute. lia.
  - split; [rewrite H1|rewrite H2]; vm_compute; reflexivity.
Defined.

(** C10: a call that succeeds fully under a [WAV_] format on a response
    body of at most 44 bytes yields the started marker and then the stopped
    marker: no audio frame and no error frame. *)
Theorem C10_short_wav_body env text self r audio_bytes format :
  succeeds_fully env text self →
  http_response env (trace_of (run_tts env text self)) r →
  resp_read r = Returns audio_bytes →
  _settings self !! "output_format" = Some format →
  startswith format "WAV_" = true →
  (length audio_bytes ≤ 44)%nat →
  events (trace_of (run_tts env text self)) = [TTSStartedFrame; TTSStoppedFrame].
Proof.
  intros Hok Hr Hread Hf Hwav Hlen.
  destruct (run_tts_streamed env text self r Hok Hr)
    as (ab & fmt & _ & Hread' & Hf' & HN & ->).
  assert (ab = audio_bytes) as -> by congruence.
  assert (fmt = format) as -> by congruence.
  unfold audio_content. rewrite Hwav, drop_ge by done.
  by rewrite chunks_of_nil.
Qed.

(** C10 at a body that is exactly the 44-byte header. *)
Lemma C10_short_wav_body_witness :
  events (trace_of (run_tts (env_answering (response_200 [])) "0123456789" example_service))
  = [TTSStartedFrame; TTSStoppedFrame].
Proof.
  apply (C10_short_wav_body (env_answering (response_200 [])) "0123456789" example_service
           (response_200 []) (repeat x00 44 ++ []) "WAV_22050_16").
  - split; [vm_compute; reflexivity|].
    exists (response_200 []). split; [|reflexivity].
    exists 1%nat, (example_request "0123456789"). split; [vm_compute; left|reflexivity].
  - exists 1%nat, (example_request "0123456789"). split; [vm_compute; left|reflexivity].
  - reflexivity.
  - vm_compute. reflexivity.
  - vm_compute. reflexivity.
  - vm_compute. lia.
Defined.

(** ** Construction and the setters *)

(** What the constructor builds when the key is not empty. *)
Lemma init_Returns super fresh a :
  truthy (api_key a) = true →
  ∃ t,
    __init__ super fresh a =
      (t,
       Returns
         {| base := set_voice
                      (or_ (p_voice_id (default InputParams_default (params a))) (voice_id a))
                      super;
            _api_key := api_key a;
            _base_url := base_url a;
            _params := default InputParams_default (params a);
            _session := Some (default fresh (aiohttp_session a));
            _created_session := bool_decide (aiohttp_session a = None);
            _settings :=
              {[ "voice_id" :=
                   or_ (p_voice_id (default InputParams_default (params a))) (voice_id a);
                 "output_format" :=
                   or_ (p_output_format (default InputParams_default (params a)))
                       (output_format a) ]} |}).
Proof.
  intros Hkey. unfold __init__, getitem. rewrite Hkey. cbn [negb].
  rewrite lookup_insert_eq, lookup_insert_ne, lookup_singleton_eq by done.
  destruct (params a), (aiohttp_session a); by eexists.
Qed.

(** An empty key makes the constructor raise, before anything else. *)
Lemma init_Raises super fresh a :
  api_key a = "" →
  __init__ super fresh a = ([], Raises (mkException "ValueError" "Missing Uplift API key")).
Proof. intros H. unfold __init__. by rewrite H. Qed.

(** C3, on the code: without a [params] object the [output_format] argument
    is not used; the format recorded is the default of [InputParams].  With
    [output_format="MP3_22050_32"] the constructor builds the very object it
    builds with no [output_format] at all, whose format is [WAV_22050_16]. *)
Lemma C3_output_format_argument_unused :
  __init__ example_base 1 mp3_args = __init__ example_base 1 (default_args "sk_test") ∧
  (__init__ example_base 1 mp3_args).2 = Returns example_service ∧
  _settings example_service !! "output_format" = Some "WAV_22050_16" ∧
  output_format mp3_args = "MP3_22050_32".
Proof. vm_compute. by repeat split. Qed.

(** The format the constructor records, in general: the field of [params]
    when there is a [params] object and its field is set, the default of
    [InputParams] when there is no [params] object, and the argument only
    when a [params] object has its field unset. *)
Lemma init_output_format super fresh a t self :
  __init__ super fresh a = (t, Returns self) →
  _settings self !! "output_format" =
    Some match params a with
         | None => "WAV_22050_16"
         | Some p => or_ (p_output_format p) (output_format a)
         end.
Proof.
  intros E.
  destruct (truthy (api_key a)) eqn:Hkey.
  - destruct (init_Returns super fresh a Hkey) as [t' E']. rewrite E' in E.
    injection E as <- <-. cbn [_settings].
    rewrite lookup_insert_ne, lookup_singleton_eq by done.
    by destruct (params a).
  - unfold __init__ in E. by rewrite Hkey in E.
Qed.

Lemma init_params_precedence super fresh a t self p f :
  __init__ super fresh a = (t, Returns self) →
  params a = Some p → p_output_format p = Some f → f ≠ "" →
  _settings self !! "output_format" = Some f.
Proof.
  intros E Hp Hf Hne. rewrite (init_output_format _ _ _ _ _ E), Hp, Hf.
  by destruct f.
Qed.

(** C9: the constructor and [set_voice_id] leave the same voice in the
    settings and in the base class (and the constructor does return when
    the key is not empty); [set_output_format] writes the [output_format]
    entry of the settings and nothing else: not the base class, not the
    voice, no other field. *)
Theorem C9_voice_consistent :
  (∀ super fresh a, truthy (api_key a) = true →
     ∃ t self, __init__ super fresh a = (t, Returns self)) ∧
  (∀ super fresh a t self,
     __init__ super fresh a = (t, Returns self) →
     _settings self !! "voice_id" = Some (_voice_id (base self))) ∧
  (∀ self v,
     result_of (set_voice_id v self) = Returns tt ∧
     _settings (self_of (set_voice_id v self)) !! "voice_id" = Some v ∧
     _voice_id (base (self_of (set_voice_id v self))) = v) ∧
  (∀ self f,
     result_of (set_output_format f self) = Returns tt ∧
     self_of (set_output_format f self) =
       with_settings (<["output_format" := f]> (_settings self)) self ∧
     base (self_of (set_output_format f self)) = base self ∧
     _settings (self_of (set_output_format f self)) !! "output_format" = Some f ∧
     ∀ k, k ≠ "output_format" →
          _settings (self_of (set_output_format f self)) !! k = _settings self !! k).
Proof.
  split; [|split; [|split]].
  - intros super fresh a Hkey.
    destruct (init_Returns super fresh a Hkey) as [t E]. by eexists _, _.
  - intros super fresh a t self E.
    destruct (truthy (api_key a)) eqn:Hkey.
    + destruct (init_Returns super fresh a Hkey) as [t' E']. rewrite E' in E.
      injection E as <- <-. cbn [_settings base set_voice _voice_id].
      apply lookup_insert_eq.
    + unfold __init__ in E. by rewrite Hkey in E.
  - intros self v. unfold set_voice_id.
    destruct (bool_decide (v ∈ AVAILABLE_VOICES)); run_step;
      unfold result_of, self_of; cbn; by rewrite lookup_insert_eq.
  - intros self f. unfold set_output_format.
    destruct (bool_decide (f ∈ AVAILABLE_FORMATS)); run_step;
      unfold result_of, self_of; cbn; rewrite lookup_insert_eq;
      (repeat split; try done); intros k Hk; by rewrite lookup_insert_ne.
Qed.

(** ** Cleanup *)

(** C8: [cleanup] closes the session exactly when the object created it and
    still holds it, and then clears the reference; otherwise it does nothing.
    It never raises.  A second call right after does nothing at all: it
    closes no session and leaves the object as the first call left it.  A
    session that was supplied from outside is never closed. *)
Theorem C8_cleanup_idempotent self :
  (∀ s, _created_session self = true → _session self = Some s →
        closed (trace_of (cleanup self)) = [s] ∧
        self_of (cleanup self) = with_session None self) ∧
  (_created_session self = false ∨ _session self = None →
        trace_of (cleanup self) = [] ∧ self_of (cleanup self) = self) ∧
  (_created_session self = false → closed (trace_of (cleanup self)) = []) ∧
  result_of (cleanup self) = Returns tt ∧
  result_of (cleanup (self_of (cleanup self))) = Returns tt ∧
  trace_of (cleanup (self_of (cleanup self))) = [] ∧
  self_of (cleanup (self_of (cleanup self))) = self_of (cleanup self).
Proof.
  unfold cleanup. run_step.
  destruct self as [b k u p [s|] [|] d]; cbn; run_step; cbn.
  all: split; [intros s0 Hc Hs; by simplify_eq|].
  all: split; [intros [Hc|Hs]; by simplify_eq|].
  all: split; [intros Hc; by simplify_eq|done].
Qed.

(** ** When a call succeeds fully *)

(** The call does succeed fully when the adapter can send its request, the
    server answers 200 with a readable body, no hook raises and the chunk
    size is not zero. *)
Lemma succeeds_fully_intro env text self s req r audio_bytes :
  sends self (transmitted text) s req →
  env_start_ttfb_metrics env = Returns tt →
  env_post env s req = Returns r →
  resp_status r = 200%Z →
  resp_read r = Returns audio_bytes →
  env_start_tts_usage_metrics env (transmitted text) = Returns tt →
  chunk_size (base self) ≠ 0%nat →
  (∀ i, env_stop_ttfb_metrics env i = Returns tt) →
  succeeds_fully env text self.
Proof.
  intros (voice & format & Hs & Hv & Hf & ->) Hstart Hpost Hst Hread Hu HN Hstop.
  assert (∃ t, run_tts_try env (transmitted text) self =
               (self, StartTtfbMetrics :: Post s
                  (mkRequest (_base_url self)
                     {[ "text" := transmitted text; "voiceId" := voice;
                        "outputFormat" := format ]}
                     {[ "Authorization" := "Bearer " +:+ _api_key self;
                        "Content-Type" := "application/json" ]}) :: t,
                Returns tt)) as [t E].
  { unfold run_tts_try, getitem. run_step.
    rewrite Hstart. run_step. rewrite Hv, Hf. run_step. rewrite Hs. run_step.
    rewrite Hpost. run_step. rewrite Hst. cbn [Z.eqb Pos.eqb negb]. run_step.
    rewrite Hread. run_step. rewrite Hu. run_step. rewrite Hf. run_step.
    destruct (startswith format "WAV_"); run_step.
    all: match goal with
         | |- context [range ?n ?m] =>
             destruct (range n m) as [idxs|e] eqn:Hr;
             [|unfold range in Hr; by destruct (chunk_size (base self))]
         end.
    all: run_step.
    all: match goal with
         | |- context [run_tts_loop ?e ?c ?n ?l ?x] =>
             pose proof (run_tts_loop_total e c n l x (λ i _, Hstop i)) as Htot;
             destruct (run_tts_loop_shape e c n l x) as (t_loop & o_loop & Hloop & _);
             rewrite Hloop in Htot |- *; unfold result_of in Htot; cbn [snd] in Htot;
             subst o_loop
         end.
    all: run_step; by eexists. }
  split; [by rewrite E|].
  exists r. split; [|done].
  destruct (run_tts_observed env text self)
    as (t' & o' & E' & _ & _ & _ & _ & _ & Hposts & _).
  unfold http_response. rewrite Hposts.
  rewrite E in E'. injection E' as <- <-.
  eexists s, _. split; [left|done].
Qed.

(** The scenario of the specification: a 10-character text, chunks of 4096
    bytes, and a 200 response of 4096 bytes, a 44-byte header and 4052 bytes
    of audio.  The frames are the started marker, one audio frame of 4052
    bytes and the stopped marker. *)
Example scenario_success :
  events (trace_of (run_tts (env_answering (response_200 (repeat x01 4052)))
                      "0123456789" example_service)) =
    [TTSStartedFrame; TTSAudioRawFrame (repeat x01 4052) 22050 1; TTSStoppedFrame].
Proof. vm_compute. reflexivity. Qed.

(** A chunk size of zero: [range] raises after the started marker. *)
Example scenario_zero_chunk_size :
  events (trace_of (run_tts (env_answering (response_200 nine_bytes)) "0123456789"
                      (with_base (mkTTSService "UpliftHttpTTSService#0" 22050 0 "v_8eelc901")
                         example_service))) =
    [TTSStartedFrame; ErrorFrame "TTS generation error: range() arg 3 must not be zero"].
Proof. vm_compute. reflexivity. Qed.

(** A call after [cleanup] on a session the object created: the reference is
    gone, the call reports the error and sends nothing. *)
Example scenario_after_cleanup :
  events (trace_of (run_tts (env_answering (response_200 nine_bytes)) "0123456789"
                      (self_of (cleanup example_service)))) =
    [ErrorFrame "TTS generation error: 'NoneType' object has no attribute 'post'"] ∧
  posts (trace_of (run_tts (env_answering (response_200 nine_bytes)) "0123456789"
                      (self_of (cleanup example_service)))) = [].
Proof. vm_compute. by split. Qed.

(** The constructor with an empty key. *)
Example scenario_missing_key :
  __init__ example_base 1 (default_args "") =
    ([], Raises (mkException "ValueError" "Missing Uplift API key")).
Proof. by apply init_Raises. Qed.

(** The constructor with only a key builds [example_service]. *)
Example scenario_construct :
  (__init__ example_base 1 (default_args "sk_test")).2 = Returns example_service.
Proof. vm_compute. reflexivity. Qed.

(** ** More on construction *)

Lemma truthy_true s : truthy s = true ↔ s ≠ "".
Proof. by destruct s. Qed.

Lemma new_sessions_app t1 t2 : new_sessions (t1 ++ t2) = new_sessions t1 ++ new_sessions t2.
Proof. apply omap_app. Qed.

(** The trace of the constructor when the key is not empty. *)
Lemma init_trace super fresh a :
  truthy (api_key a) = true →
  (__init__ super fresh a).1 =
    (match aiohttp_session a with
     | Some _ => []
     | None => [NewSession fresh; Log DEBUG "Created internal aiohttp session"]
     end) ++
    (if bool_decide (or_ (p_output_format (default InputParams_default (params a)))
                         (output_format a) ∈ AVAILABLE_FORMATS)
     then []
     else [Log WARNING
             (unknown_format_message
                (or_ (p_output_format (default InputParams_default (params a)))
                     (output_format a)))]) ++
    (if bool_decide (or_ (p_voice_id (default InputParams_default (params a)))
                         (voice_id a) ∈ AVAILABLE_VOICES)
     then []
     else [Log WARNING
             (unknown_voice_message
                (or_ (p_voice_id (default InputParams_default (params a))) (voice_id a)))]) ++
    [Log DEBUG
       ("Uplift HTTP TTS initialized with voice_id=" +:+
        or_ (p_voice_id (default InputParams_default (params a))) (voice_id a) +:+
        ", output_format=" +:+
        or_ (p_output_format (default InputParams_default (params a))) (output_format a))].
Proof.
  intros Hkey. unfold __init__, getitem. rewrite Hkey. cbn [negb].
  rewrite lookup_insert_eq, lookup_insert_ne, lookup_singleton_eq by done.
  by destruct (params a), (aiohttp_session a).
Qed.

(** The constructor returns an object exactly when the key is not empty; with
    an empty key it raises [ValueError] before it creates a session or logs
    anything. *)
Theorem init_returns_iff_key super fresh a :
  ((∃ t self, __init__ super fresh a = (t, Returns self)) ↔ api_key a ≠ "") ∧
  (api_key a = "" →
   __init__ super fresh a = ([], Raises (mkException "ValueError" "Missing Uplift API key"))).
Proof.
  split; [|apply init_Raises].
  rewrite <- truthy_true. split.
  - intros (t & self & E). destruct (truthy (api_key a)) eqn:Hkey; [done|].
    unfold __init__ in E. by rewrite Hkey in E.
  - intros Hkey. destruct (init_Returns super fresh a Hkey) as [t E]. by eexists _, _.
Qed.

(** Who owns the session.  A session given to the constructor is kept and
    not owned: no session is created, and [cleanup] does nothing.  Without
    one, the constructor creates a session, and [cleanup] closes that
    session, once, and drops it. *)
Theorem init_session_ownership super fresh a t self :
  __init__ super fresh a = (t, Returns self) →
  match aiohttp_session a with
  | Some s =>
      _session self = Some s ∧ _created_session self = false ∧
      new_sessions t = [] ∧
      trace_of (cleanup self) = [] ∧ self_of (cleanup self) = self
  | None =>
      _session self = Some fresh ∧ _created_session self = true ∧
      new_sessions t = [fresh] ∧
      closed (trace_of (cleanup self)) = [fresh] ∧
      _session (self_of (cleanup self)) = None
  end.
Proof.
  intros E.
  destruct (truthy (api_key a)) eqn:Hkey;
    [|unfold __init__ in E; by rewrite Hkey in E].
  pose proof (init_trace super fresh a Hkey) as Ht.
  destruct (init_Returns super fresh a Hkey) as [t' E']. rewrite E' in E.
  rewrite E' in Ht. cbn [fst] in Ht.
  injection E as -> <-. subst t.
  rewrite !new_sessions_app.
  destruct (aiohttp_session a) as [s|]; cbn [default].
  - rewrite (bool_decide_eq_false_2 (Some s = (None : option ClientSession))) by done.
    repeat match goal with |- context [bool_decide ?P] => destruct (bool_decide P) end.
    all: by vm_compute.
  - rewrite (bool_decide_eq_true_2 ((None : option ClientSession) = None)) by done.
    repeat match goal with |- context [bool_decide ?P] => destruct (bool_decide P) end.
    all: by vm_compute.
Qed.

(** The two cases of [init_session_ownership]: the default arguments, and a
    session supplied from outside. *)
Lemma init_session_ownership_witness :
  closed (trace_of (cleanup example_service)) = [1%nat] ∧
  new_sessions (__init__ example_base 1 borrowed_args).1 = [].
Proof.
  split.
  - pose proof (init_session_ownership example_base 1 (default_args "sk_test")
                  (__init__ example_base 1 (default_args "sk_test")).1 example_service) as H.
    lazy beta iota delta [default_args aiohttp_session] in H.
    destruct H as (_ & _ & _ & H & _); [vm_compute; reflexivity|exact H].
  - pose proof (init_session_ownership example_base 1 borrowed_args
                  (__init__ example_base 1 borrowed_args).1
                  (with_session (Some 9%nat)
                     {| base := base example_service; _api_key := "sk_test";
                        _base_url := _base_url example_service;
                        _params := InputParams_default; _session := None;
                        _created_session := false;
                        _settings := _settings example_service |})) as H.
    lazy beta iota delta [borrowed_args aiohttp_session] in H.
    destruct H as (_ & _ & H & _); [vm_compute; reflexivity|exact H].
Defined.

(** Which voice and format the constructor records.  The voice is the one
    registered with the base class.  Without a [params] object the voice is
    the [voice_id] argument.  With one, each of its two fields is used when
    it is set to a non-empty string, and the matching argument is used when
    the field is [None] or empty. *)
Theorem init_precedence super fresh a t self :
  __init__ super fresh a = (t, Returns self) →
  ∃ v f,
    _settings self !! "voice_id" = Some v ∧
    _settings self !! "output_format" = Some f ∧
    _voice_id (base self) = v ∧
    match params a with
    | None => v = voice_id a
    | Some p =>
        (∀ x, p_voice_id p = Some x → x ≠ "" → v = x) ∧
        (p_voice_id p = None ∨ p_voice_id p = Some "" → v = voice_id a) ∧
        (∀ x, p_output_format p = Some x → x ≠ "" → f = x) ∧
        (p_output_format p = None ∨ p_output_format p = Some "" → f = output_format a)
    end.
Proof.
  intros E.
  destruct (truthy (api_key a)) eqn:Hkey;
    [|unfold __init__ in E; by rewrite Hkey in E].
  destruct (init_Returns super fresh a Hkey) as [t' E']. rewrite E' in E.
  injection E as _ <-. cbn [_settings base set_voice _voice_id].
  eexists _, _. split; [apply lookup_insert_eq|].
  split; [by rewrite lookup_insert_ne, lookup_singleton_eq|].
  split; [done|].
  destruct (params a) as [[pv pf]|]; cbn [default p_voice_id p_output_format InputParams_default or_];
    [|done].
  repeat split.
  - intros x -> Hx. by destruct x.
  - by intros [->| ->].
  - intros x -> Hx. by destruct x.
  - by intros [->| ->].
Qed.

(** [init_precedence] at [params_args]: the empty voice of [params] gives
    way to the argument, the format of [params] wins over the argument. *)
Lemma init_precedence_witness :
  ∃ self,
    (__init__ example_base 1 params_args).2 = Returns self ∧
    _settings self !! "voice_id" = Some "v_kwmp7zxt" ∧
    _settings self !! "output_format" = Some "OGG_22050_16".
Proof.
  destruct (__init__ example_base 1 params_args) as [t [self|e]] eqn:E;
    [|by vm_compute in E].
  exists self. split; [done|].
  destruct (init_precedence example_base 1 params_args t self E)
    as (v & f & Hv & Hf & _ & H).
  lazy beta iota delta [params_args params] in H.
  destruct H as (_ & H1 & H2 & _).
  rewrite Hv, Hf, (H1 ltac:(by right)), (H2 "OGG_22050_16" eq_refl ltac:(done)).
  done.
Defined.

(** The constructor only warns about a voice or format it does not know: the
    object is built all the same, with one warning per unknown value, the
    format first. *)
Theorem init_soft_validation super fresh a t self :
  __init__ super fresh a = (t, Returns self) →
  ∃ v f,
    _settings self !! "voice_id" = Some v ∧
    _settings self !! "output_format" = Some f ∧
    (logged WARNING t = [] ↔ v ∈ AVAILABLE_VOICES ∧ f ∈ AVAILABLE_FORMATS) ∧
    (v ∈ AVAILABLE_VOICES → f ∉ AVAILABLE_FORMATS →
       logged WARNING t = [unknown_format_message f]) ∧
    (v ∉ AVAILABLE_VOICES → f ∈ AVAILABLE_FORMATS →
       logged WARNING t = [unknown_voice_message v]) ∧
    (v ∉ AVAILABLE_VOICES → f ∉ AVAILABLE_FORMATS →
       logged WARNING t = [unknown_format_message f; unknown_voice_message v]).
Proof.
  intros E.
  destruct (truthy (api_key a)) eqn:Hkey;
    [|unfold __init__ in E; by rewrite Hkey in E].
  pose proof (init_trace super fresh a Hkey) as Ht.
  destruct (init_Returns super fresh a Hkey) as [t' E']. rewrite E' in E.
  rewrite E' in Ht. cbn [fst] in Ht.
  injection E as -> <-. subst t. cbn [_settings].
  eexists _, _. split; [apply lookup_insert_eq|].
  split; [by rewrite lookup_insert_ne, lookup_singleton_eq|].
  rewrite !logged_app.
  assert (∀ s, logged WARNING
            (match aiohttp_session a with
             | Some _ => []
             | None => [NewSession s; Log DEBUG "Created internal aiohttp session"]
             end) = []) as -> by (by destruct (aiohttp_session a)).
  do 2 case_bool_decide; cbn [logged omap app]; intuition (try done; try discriminate).
Qed.

(** [init_soft_validation] at an unknown voice. *)
Lemma init_soft_validation_witness :
  logged WARNING
    (__init__ example_base 1
       {| api_key := "sk_test"; base_url := ""; voice_id := "v_unknown";
          output_format := "WAV_22050_16"; aiohttp_session := None; params := None |}).1
  = [unknown_voice_message "v_unknown"].
Proof.
  destruct (__init__ example_base 1
       {| api_key := "sk_test"; base_url := ""; voice_id := "v_unknown";
          output_format := "WAV_22050_16"; aiohttp_session := None; params := None |})
    as [t [self|e]] eqn:E; [|by vm_compute in E].
  destruct (init_soft_validation _ _ _ _ _ E) as (v & f & Hv & Hf & _ & _ & H & _).
  vm_compute in E. injection E as <- <-.
  vm_compute in Hv, Hf. injection Hv as <-. injection Hf as <-.
  apply H.
  - apply (proj1 (bool_decide_eq_false ("v_unknown" ∈ AVAILABLE_VOICES))).
    vm_compute. reflexivity.
  - apply (proj1 (bool_decide_eq_true ("WAV_22050_16" ∈ AVAILABLE_FORMATS))).
    vm_compute. reflexivity.
Defined.

(** ** More on the setters *)

Lemma set_voice_id_run v self :
  set_voice_id v self =
    (with_base (set_voice v (base self))
       (with_settings (<["voice_id" := v]> (_settings self)) self),
     (if bool_decide (v ∈ AVAILABLE_VOICES) then []
      else [Log WARNING (unknown_voice_message v)]) ++
     [Log INFO ("Switching Uplift TTS voice to: [" +:+ v +:+ "]")],
     Returns tt).
Proof. unfold set_voice_id. by case_bool_decide. Qed.

Lemma set_output_format_run f self :
  set_output_format f self =
    (with_settings (<["output_format" := f]> (_settings self)) self,
     (if bool_decide (f ∈ AVAILABLE_FORMATS) then []
      else [Log WARNING (unknown_format_message f)]) ++
     [Log INFO ("Switching Uplift TTS output format to: [" +:+ f +:+ "]")],
     Returns tt).
Proof. unfold set_output_format. by case_bool_decide. Qed.

(** The setters only warn about a value they do not know (C9 shows that the
    value is stored all the same): a warning is logged exactly when the
    value is not in the list of known ones.  Each setter logs one line at
    level INFO, yields nothing, sends nothing and closes nothing. *)
Theorem setters_soft_validation self v f :
  (logged WARNING (trace_of (set_voice_id v self)) = [] ↔ v ∈ AVAILABLE_VOICES) ∧
  (v ∉ AVAILABLE_VOICES →
   logged WARNING (trace_of (set_voice_id v self)) = [unknown_voice_message v]) ∧
  (logged WARNING (trace_of (set_output_format f self)) = [] ↔ f ∈ AVAILABLE_FORMATS) ∧
  (f ∉ AVAILABLE_FORMATS →
   logged WARNING (trace_of (set_output_format f self)) = [unknown_format_message f]) ∧
  logged INFO (trace_of (set_voice_id v self)) =
    ["Switching Uplift TTS voice to: [" +:+ v +:+ "]"] ∧
  logged INFO (trace_of (set_output_format f self)) =
    ["Switching Uplift TTS output format to: [" +:+ f +:+ "]"] ∧
  events (trace_of (set_voice_id v self)) = [] ∧
  events (trace_of (set_output_format f self)) = [] ∧
  posts (trace_of (set_voice_id v self)) = [] ∧
  posts (trace_of (set_output_format f self)) = [] ∧
  closed (trace_of (set_voice_id v self)) = [] ∧
  closed (trace_of (set_output_format f self)) = [].
Proof.
  rewrite set_voice_id_run, set_output_format_run. unfold trace_of. cbn [fst snd].
  do 2 case_bool_decide; cbn; intuition (try done; try discriminate).
Qed.

(** How the setters compose: the last voice set wins, the last format set
    wins, and setting the voice and setting the format can be done in either
    order. *)
Theorem setters_compose self v1 v2 f1 f2 :
  self_of (set_voice_id v2 (self_of (set_voice_id v1 self))) = self_of (set_voice_id v2 self) ∧
  self_of (set_output_format f2 (self_of (set_output_format f1 self))) =
    self_of (set_output_format f2 self) ∧
  self_of (set_output_format f1 (self_of (set_voice_id v1 self))) =
    self_of (set_voice_id v1 (self_of (set_output_format f1 self))).
Proof.
  rewrite !set_voice_id_run, !set_output_format_run. unfold self_of. cbn [fst snd].
  unfold with_base, with_settings, set_voice. cbn.
  split; [|split]; f_equal.
  - apply insert_insert_eq.
  - apply insert_insert_eq.
  - by apply insert_insert_ne.
Qed.

(** A request sent after the setters carries the voice and the format they
    set, known or not, beside the text. *)
Theorem setters_reach_request env text self v f s req :
  (s, req) ∈ posts (trace_of (run_tts env text
                      (self_of (set_output_format f (self_of (set_voice_id v self)))))) →
  req_json req !! "voiceId" = Some v ∧
  req_json req !! "outputFormat" = Some f ∧
  req_json req !! "text" = Some (transmitted text).
Proof.
  intros (voice & format & _ & Hv & Hf & ->)%run_tts_posts.
  rewrite set_voice_id_run in Hv, Hf. unfold self_of in Hv, Hf. cbn [fst snd] in Hv, Hf.
  rewrite set_output_format_run in Hv, Hf. cbn [fst snd with_settings with_base _settings] in Hv, Hf.
  rewrite lookup_insert_ne, lookup_insert_eq in Hv by done.
  rewrite lookup_insert_eq in Hf.
  injection Hv as <-. injection Hf as <-. cbn [req_json].
  split; [by rewrite lookup_insert_ne, lookup_insert_eq|].
  split; [by rewrite !lookup_insert_ne, lookup_singleton_eq|].
  apply lookup_insert_eq.
Qed.

(** [setters_reach_request] at a voice and a format that are not in the
    lists of known ones. *)
Lemma setters_reach_request_witness :
  ∃ req,
    posts (trace_of (run_tts env_503 "0123456789"
             (self_of (set_output_format "FLAC_1" (self_of (set_voice_id "v_new" example_service))))))
    = [(1%nat, req)] ∧
    req_json req !! "voiceId" = Some "v_new" ∧
    req_json req !! "outputFormat" = Some "FLAC_1".
Proof.
  eexists. split; [vm_compute; reflexivity|].
  destruct (setters_reach_request env_503 "0123456789" example_service "v_new" "FLAC_1" 1%nat
              (mkRequest "https://api.upliftai.org/v1/synthesis/text-to-speech"
                 {[ "text" := "0123456789"; "voiceId" := "v_new"; "outputFormat" := "FLAC_1" ]}
                 {[ "Authorization" := "Bearer sk_test";
                    "Content-Type" := "application/json" ]})) as (H1 & H2 & _).
  - vm_compute. left.
  - split; [vm_compute in H1 |- *; exact H1 | vm_compute in H2 |- *; exact H2].
Defined.

(** ** The request, and the session it needs *)

Lemma closed_app t1 t2 : closed (t1 ++ t2) = closed t1 ++ closed t2.
Proof. apply omap_app. Qed.

(** A call sends at most one request: there is no retry.  The request goes
    out on the session of the object, to its URL, with the bearer token and
    the JSON content type as its two headers and [text], [voiceId] and
    [outputFormat] as the three fields of its body, the last two read from
    the settings. *)
Theorem run_tts_single_request env text self :
  (length (posts (trace_of (run_tts env text self))) ≤ 1)%nat ∧
  ∀ s req, (s, req) ∈ posts (trace_of (run_tts env text self)) →
    _session self = Some s ∧
    req_url req = _base_url self ∧
    req_headers req = {[ "Authorization" := "Bearer " +:+ _api_key self;
                         "Content-Type" := "application/json" ]} ∧
    ∃ voice format,
      _settings self !! "voice_id" = Some voice ∧
      _settings self !! "output_format" = Some format ∧
      req_json req = {[ "text" := transmitted text; "voiceId" := voice;
                        "outputFormat" := format ]}.
Proof.
  split.
  - destruct (run_tts_observed env text self) as (t & o & _ & P & _ & _ & _ & _ & -> & _).
    destruct P as [e|s req t' o' _ HP]; [cbn; lia|].
    change (posts (StartTtfbMetrics :: Post s req :: t')) with ((s, req) :: posts t').
    by rewrite (response_path_posts _ _ _ _ _ _ HP).
  - intros s req (voice & format & Hs & Hv & Hf & ->)%run_tts_posts.
    repeat (split; [done|]). by exists voice, format.
Qed.

(** Without a session the call sends nothing.  It ends normally with one
    error frame, also handed to [push_error]; or, when the first hook raises
    an exception that is not an [Exception], with that exception and no
    frame.  When the object has its settings and the first hook returns, the
    error is the [AttributeError] of [self._session.post]. *)
Lemma run_tts_no_session env text self :
  _session self = None →
  posts (trace_of (run_tts env text self)) = [] ∧
  ((result_of (run_tts env text self) = Returns tt ∧
    ∃ m, events (trace_of (run_tts env text self)) = [ErrorFrame m] ∧
         published (trace_of (run_tts env text self)) = [ErrorFrame m]) ∨
   (∃ e, result_of (run_tts env text self) = Raises e ∧ is_Exception e = false ∧
         events (trace_of (run_tts env text self)) = [] ∧
         published (trace_of (run_tts env text self)) = [])) ∧
  (env_start_ttfb_metrics env = Returns tt →
   is_Some (_settings self !! "voice_id") →
   is_Some (_settings self !! "output_format") →
   result_of (run_tts env text self) = Returns tt ∧
   events (trace_of (run_tts env text self)) =
     [ErrorFrame "TTS generation error: 'NoneType' object has no attribute 'post'"]).
Proof.
  intros Hnone.
  destruct (run_tts_observed env text self)
    as (t & o & E & P & _ & -> & -> & -> & -> & _).
  destruct P as [e|s req t' o' (? & ? & Hs & _) HP]; [|congruence].
  split; [done|]. split.
  - cbn [run_result]. destruct (except_trace_events e) as [-> ->].
    destruct (is_Exception e) eqn:Hexc;
      [left; split; [done|by eexists]|right; exists e; by repeat split].
  - intros Hstart [voice Hv] [format Hf].
    revert E. unfold run_tts_try, getitem. run_step.
    rewrite Hstart. run_step. rewrite Hv, Hf. run_step. rewrite Hnone. run_step.
    intros [= <-]. by vm_compute.
Qed.

(** After [cleanup] on an object that created its session, [run_tts] cannot
    send a request any more: the session is not created again.  Every call
    then ends with one error frame, also handed to [push_error], unless the
    first hook raises an exception that is not an [Exception], which goes
    through with no frame.  When the object has its settings and the first
    hook returns, the call ends normally on the [AttributeError] of
    [self._session.post]. *)
Theorem run_tts_after_cleanup env text self :
  _created_session self = true →
  posts (trace_of (run_tts env text (self_of (cleanup self)))) = [] ∧
  ((result_of (run_tts env text (self_of (cleanup self))) = Returns tt ∧
    ∃ m, events (trace_of (run_tts env text (self_of (cleanup self)))) = [ErrorFrame m] ∧
         published (trace_of (run_tts env text (self_of (cleanup self)))) = [ErrorFrame m]) ∨
   (∃ e, result_of (run_tts env text (self_of (cleanup self))) = Raises e ∧
         is_Exception e = false ∧
         events (trace_of (run_tts env text (self_of (cleanup self)))) = [] ∧
         published (trace_of (run_tts env text (self_of (cleanup self)))) = [])) ∧
  (env_start_ttfb_metrics env = Returns tt →
   is_Some (_settings self !! "voice_id") →
   is_Some (_settings self !! "output_format") →
   result_of (run_tts env text (self_of (cleanup self))) = Returns tt ∧
   events (trace_of (run_tts env text (self_of (cleanup self)))) =
     [ErrorFrame "TTS generation error: 'NoneType' object has no attribute 'post'"]).
Proof.
  intros Hc.
  assert (_session (self_of (cleanup self)) = None ∧
          _settings (self_of (cleanup self)) = _settings self) as [Hs Hd].
  { unfold cleanup. run_step. rewrite Hc.
    destruct (_session self) as [s|] eqn:Hs; run_step; by cbn. }
  destruct (run_tts_no_session env text _ Hs) as (H1 & H2 & H3).
  rewrite Hd in H3. done.
Qed.

(** [run_tts_after_cleanup] at the object built with only a key, in a world
    where the server would answer 200. *)
Lemma run_tts_after_cleanup_witness :
  events (trace_of (run_tts (env_answering (response_200 nine_bytes)) "0123456789"
                      (self_of (cleanup example_service)))) =
    [ErrorFrame "TTS generation error: 'NoneType' object has no attribute 'post'"].
Proof.
  destruct (run_tts_after_cleanup (env_answering (response_200 nine_bytes)) "0123456789"
              example_service) as (_ & _ & H); [reflexivity|].
  destruct H as [_ H]; [reflexivity|vm_compute; by eexists..|exact H].
Defined.

(** [async with] on the object: whatever the body does, and whether it
    returns or raises, an object that owns its session at the end of the body
    has it closed once, after the body, and dropped; the result of the block
    is the result of the body, and the block yields nothing of its own. *)
Theorem async_with_closes_owned_session body self s :
  _created_session (self_of (body self)) = true →
  _session (self_of (body self)) = Some s →
  closed (trace_of (async_with body self)) = closed (trace_of (body self)) ++ [s] ∧
  _session (self_of (async_with body self)) = None ∧
  result_of (async_with body self) = result_of (body self) ∧
  events (trace_of (async_with body self)) = events (trace_of (body self)).
Proof.
  unfold async_with, __aenter__, __aexit__, cleanup, self_of, trace_of, result_of.
  run_step. destruct (body self) as [[self2 t2] o2]. cbn [fst snd].
  intros -> ->. run_step. cbn [fst snd].
  rewrite closed_app, events_app. cbn. by rewrite app_nil_r.
Qed.

(** [async_with_closes_owned_session] at a body that sets the voice and then
    raises. *)
Lemma async_with_closes_owned_session_witness :
  closed (trace_of (async_with
            (set_voice_id "v_kwmp7zxt" ;;; raise (mkException "RuntimeError" "boom"))
            example_service)) = [1%nat] ∧
  result_of (async_with
            (set_voice_id "v_kwmp7zxt" ;;; raise (mkException "RuntimeError" "boom"))
            example_service) = Raises (mkException "RuntimeError" "boom").
Proof.
  destruct (async_with_closes_owned_session
              (set_voice_id "v_kwmp7zxt" ;;; raise (mkException "RuntimeError" "boom"))
              example_service 1%nat) as (H1 & _ & H2 & _).
  - vm_compute. reflexivity.
  - vm_compute. reflexivity.
  - split; [rewrite H1|rewrite H2]; vm_compute; reflexivity.
Defined.

(** ** More on the frames of a run *)

Lemma run_tts_loop_well_formed env c idxs self t o :
  run_tts_loop env c (chunk_size (base self)) idxs self = (self, t, o) →
  Forall (well_formed_frame self) (events t).
Proof.
  revert t o. induction idxs as [|i rest IH]; simpl; intros t o.
  - by intros [= <- <-].
  - destruct (slice c i (i + chunk_size (base self))) as [|b chunk] eqn:Hs;
      [by intros [= <- <-]|].
    unfold bind, call, tell, lift, get, yield. simpl.
    destruct (env_stop_ttfb_metrics env i) as [[]|e]; simpl; [|by intros [= <- <-]].
    destruct (run_tts_loop_shape env c (chunk_size (base self)) rest self)
      as (t' & o' & E & _).
    rewrite E. intros [= <- <-].
    change (Forall (well_formed_frame self)
              (TTSAudioRawFrame (b :: chunk) (sample_rate (base self)) 1 :: events t')).
    constructor; [|by eapply IH].
    split; [|done]. rewrite <- Hs, slice_chunk, length_take.
    assert (0 < length (slice c i (i + chunk_size (base self))))%nat as Hpos
      by (rewrite Hs; simpl; lia).
    rewrite slice_chunk, length_take in Hpos. lia.
Qed.

Lemma response_path_well_formed env text self a t o :
  response_path env text self a t o → Forall (well_formed_frame self) (events t).
Proof.
  destruct 1; try (by repeat constructor).
  - change (Forall (well_formed_frame self) (TTSStartedFrame :: events t_loop)).
    constructor; [done|]. by eapply run_tts_loop_well_formed.
  - change (Forall (well_formed_frame self)
              (TTSStartedFrame :: events (t_loop ++ [Yield TTSStoppedFrame]))).
    constructor; [done|]. rewrite events_app. apply Forall_app. split.
    + by eapply run_tts_loop_well_formed.
    + by repeat constructor.
Qed.

(** Every audio frame of every run, also of a run that fails half way, holds
    a non-empty chunk of at most [chunk_size] bytes, at the sample rate of the
    service and with one channel. *)
Theorem run_tts_frames_well_formed env text self :
  Forall (well_formed_frame self) (events (trace_of (run_tts env text self))) ∧
  ∀ audio rate channels,
    TTSAudioRawFrame audio rate channels ∈ events (trace_of (run_tts env text self)) →
    (0 < length audio ≤ chunk_size (base self))%nat ∧
    rate = sample_rate (base self) ∧ channels = 1%Z.
Proof.
  assert (Forall (well_formed_frame self) (events (trace_of (run_tts env text self)))) as H.
  { destruct (run_tts_observed env text self) as (t & o & _ & P & _ & _ & -> & _).
    apply Forall_app. split;
      [|destruct o as [|e]; [done|]; cbn; destruct (is_Exception e); by repeat constructor].
    destruct P as [e|s req t' o' _ HP]; [done|].
    change (Forall (well_formed_frame self) (events t')).
    by eapply response_path_well_formed. }
  split; [done|]. intros audio rate channels Hin.
  rewrite Forall_forall in H. apply (H _ Hin).
Qed.


(** ** A run that fails half way *)

(** When [stop_ttfb_metrics] raises at the offset [i], after returning at
    all the offsets before it, the loop raises, having yielded the chunks of
    the offsets before [i]. *)
Lemma run_tts_loop_Raises env c N idxs1 i idxs2 self e :
  (0 < N)%nat →
  (∀ x, x ∈ idxs1 → (x < length c)%nat) →
  (i < length c)%nat →
  (∀ x, x ∈ idxs1 → env_stop_ttfb_metrics env x = Returns tt) →
  env_stop_ttfb_metrics env i = Raises e →
  ∃ t, run_tts_loop env c N (idxs1 ++ i :: idxs2) self = (self, t, Raises e) ∧
       events t = map (λ x, audio_frame self (slice c x (x + N))) idxs1 ∧
       published t = [].
Proof.
  intros HN Hin Hi Hok Hbad.
  assert (∀ x, (x < length c)%nat → slice c x (x + N) ≠ []) as Hne.
  { intros x Hx Hnil. apply (f_equal length) in Hnil.
    rewrite slice_chunk, length_take, length_drop in Hnil. simpl in Hnil. lia. }
  induction idxs1 as [|x rest IH]; simpl.
  - destruct (slice c i (i + N)) as [|b chunk] eqn:Hs; [by apply Hne in Hs|].
    unfold bind, call, tell, lift, get, yield. simpl. rewrite Hbad. by eexists.
  - destruct (slice c x (x + N)) as [|b chunk] eqn:Hs;
      [apply Hne in Hs; [done|apply Hin; by left]|].
    unfold bind, call, tell, lift, get, yield. simpl.
    rewrite (Hok x ltac:(by left)). simpl.
    destruct IH as (t & E & Hev & Hpub).
    { intros y Hy. apply Hin. by right. }
    { intros y Hy. apply Hok. by right. }
    rewrite E. eexists. split; [reflexivity|]. split.
    + change (audio_frame self (b :: chunk) :: events t =
              audio_frame self (b :: chunk) ::
                map (λ x0, audio_frame self (slice c x0 (x0 + N))) rest).
      by rewrite Hev.
    + exact Hpub.
Qed.

Lemma run_tts_result env text self t o :
  run_tts_try env (transmitted text) self = (self, t, o) →
  result_of (run_tts env text self) = run_result o.
Proof.
  intros E. destruct (run_tts_observed env text self) as (t' & o' & E' & _ & _ & -> & _).
  rewrite E in E'. by injection E' as _ <-.
Qed.

(** A failure in the middle of the stream.  When the response is a readable
    200 and [stop_ttfb_metrics] raises before chunk [j], after returning
    for the chunks before it, the run yields the started marker and the
    first [j] chunks of the audio content: the audio already yielded stays,
    nothing follows the failing chunk but the report of the failure, and
    there is no stopped marker.  For an [Exception] the run then yields the
    error frame of the exception, hands it to [push_error] once and ends
    normally; an exception that is not an [Exception] goes through, with no
    error frame and nothing handed to [push_error]. *)
Theorem run_tts_interrupted env text self r audio_bytes format j e :
  http_response env (trace_of (run_tts env text self)) r →
  resp_status r = 200%Z →
  resp_read r = Returns audio_bytes →
  env_start_tts_usage_metrics env (transmitted text) = Returns tt →
  _settings self !! "output_format" = Some format →
  (j < ceil_div (length (audio_content format audio_bytes)) (chunk_size (base self)))%nat →
  (∀ k, (k < j)%nat →
        env_stop_ttfb_metrics env (k * chunk_size (base self)) = Returns tt) →
  env_stop_ttfb_metrics env (j * chunk_size (base self)) = Raises e →
  events (trace_of (run_tts env text self)) =
    TTSStartedFrame ::
      map (audio_frame self)
        (take j (chunks_of (audio_content format audio_bytes) (chunk_size (base self)))) ++
      (if is_Exception e then [ErrorFrame (generation_error_message e)] else []) ∧
  published (trace_of (run_tts env text self)) =
    (if is_Exception e then [ErrorFrame (generation_error_message e)] else []) ∧
  result_of (run_tts env text self) = (if is_Exception e then Returns tt else Raises e).
Proof.
  intros Hr Hst Hread Hu Hf Hj Hok Hbad.
  set (content := audio_content format audio_bytes) in *.
  set (N := chunk_size (base self)) in *.
  assert (0 < N)%nat as HN.
  { destruct N; [|lia]. unfold ceil_div in Hj. simpl in Hj. lia. }
  set (n := ceil_div (length content) N) in *.
  assert (seq 0 n = seq 0 j ++ j :: seq (S j) (n - S j)) as Hseq.
  { replace n with (j + S (n - S j))%nat at 1 by lia. by rewrite seq_app. }
  destruct (run_tts_loop_Raises env content N
              (map (λ k, k * N)%nat (seq 0 j)) (j * N)%nat
              (map (λ k, k * N)%nat (seq (S j) (n - S j))) self e HN)
    as (t_ref & Eref & Hev_ref & Hpub_ref); [| | |done|].
  { intros x (k & -> & Hk%elem_of_seq)%list_elem_of_fmap.
    apply ceil_div_index; [done|]. fold n. lia. }
  { by apply ceil_div_index. }
  { intros x (k & -> & Hk%elem_of_seq)%list_elem_of_fmap. apply Hok. lia. }
  assert (map (λ x, audio_frame self (slice content x (x + N)))
            (map (λ k, k * N)%nat (seq 0 j))
          = map (audio_frame self) (take j (chunks_of content N))) as Hchunks.
  { unfold chunks_of. fold n. rewrite Hseq, map_app, take_app_length'
      by (by rewrite length_map, length_seq).
    by rewrite !map_map. }
  rewrite Hchunks in Hev_ref.
  change (map (λ k, k * N)%nat (seq 0 j) ++ (j * N)%nat ::
            map (λ k, k * N)%nat (seq (S j) (n - S j)))
    with (map (λ k, k * N)%nat (seq 0 j) ++
            map (λ k, k * N)%nat (j :: seq (S j) (n - S j))) in Eref.
  rewrite <- map_app, <- Hseq in Eref.
  destruct (run_tts_response env text self r Hr)
    as (s & req & t & o & _ & _ & HP & E & _ & -> & ->).
  rewrite (run_tts_result _ _ _ _ _ E). clear E.
  inversion HP as [| | | ? ? ? Hread'| ? ? ? ? Hread' Hu'
                  | ? ab fmt c' note e' ? Hread' Hu' Hf' Hc Hrange
                  | ? ab fmt c' note idxs t_loop e' ? Hread' Hu' Hf' Hc Hrange Hloop
                  | ? ab fmt c' note idxs t_loop ? Hread' Hu' Hf' Hc Hrange Hloop];
    subst; try congruence.
  - assert (ab = audio_bytes) as -> by congruence.
    assert (fmt = format) as -> by congruence.
    fold content N in Hrange. by rewrite range_Returns in Hrange.
  - assert (ab = audio_bytes) as -> by congruence.
    assert (fmt = format) as -> by congruence.
    fold content N in Hrange, Hloop.
    rewrite range_Returns in Hrange by done. injection Hrange as <-. fold n in Hloop.
    rewrite Eref in Hloop. injection Hloop as <- <-.
    destruct (except_trace_events e) as [-> ->]. cbn [run_result].
    split; [|split; [|done]].
    + change (TTSStartedFrame :: events t_ref ++
                (if is_Exception e then [ErrorFrame (generation_error_message e)] else []) =
              TTSStartedFrame :: map (audio_frame self) (take j (chunks_of content N)) ++
                (if is_Exception e then [ErrorFrame (generation_error_message e)] else [])).
      by rewrite Hev_ref.
    + change (published t_ref ++
                (if is_Exception e then [ErrorFrame (generation_error_message e)] else []) =
              (if is_Exception e then [ErrorFrame (generation_error_message e)] else [])).
      by rewrite Hpub_ref.
  - assert (ab = audio_bytes) as -> by congruence.
    assert (fmt = format) as -> by congruence.
    fold content N in Hrange, Hloop.
    rewrite range_Returns in Hrange by done. injection Hrange as <-. fold n in Hloop.
    rewrite Eref in Hloop. by injection Hloop.
Qed.

(** [run_tts_interrupted] at nine bytes of audio in chunks of 4, with the hook
    raising at the second chunk (offset 4): one chunk is yielded, then the
    error. *)
Lemma run_tts_interrupted_witness :
  events (trace_of (run_tts (env_failing_at nine_bytes 4) "0123456789" small_chunk_service)) =
    [TTSStartedFrame; TTSAudioRawFrame [x01; x02; x03; x04] 22050 1;
     ErrorFrame "TTS generation error: metrics unavailable"].
Proof.
  destruct (run_tts_interrupted (env_failing_at nine_bytes 4) "0123456789"
              small_chunk_service (response_200 nine_bytes)
              (repeat x00 44 ++ nine_bytes) "WAV_22050_16" 1
              (mkException "RuntimeError" "metrics unavailable")) as (H & _ & _).
  - exists 1%nat, (example_request "0123456789"). split; [vm_compute; left|reflexivity].
  - reflexivity.
  - reflexivity.
  - reflexivity.
  - vm_compute. reflexivity.
  - vm_compute. lia.
  - intros k Hk. assert (k = 0)%nat as -> by lia. vm_compute. reflexivity.
  - vm_compute. reflexivity.
  - rewrite H. vm_compute. reflexivity.
Defined.

(** ** Usage metering, and what truncation changes *)

Lemma metered_app t1 t2 : metered (t1 ++ t2) = metered t1 ++ metered t2.
Proof. apply omap_app. Qed.

Lemma loop_effect_metered self t : Forall (loop_effect self) t → metered t = [].
Proof. induction 1 as [|x t [->|(chunk & Hne & ->)] _ IH]; done. Qed.

Lemma response_path_metered env text self a t o :
  response_path env text self a t o →
  (metered t = [] ∨ metered t = [text]) ∧
  (TTSStartedFrame ∈ events t → metered t = [text]) ∧
  (metered t = [text] →
   ∃ r audio_bytes, a = Returns r ∧ resp_status r = 200%Z ∧ resp_read r = Returns audio_bytes) ∧
  (∀ r, a = Returns r → resp_status r ≠ 200%Z → metered t = []).
Proof.
  destruct 1 as [e|r body Hst Ht|r e Hst Ht|r e Hst Hr|r ab e Hst Hr Hu
                |r ab fmt content note e Hst Hr Hu Hf Hc Hrange
                |r ab fmt content note idxs t_loop e Hst Hr Hu Hf Hc Hrange Hloop
                |r ab fmt content note idxs t_loop Hst Hr Hu Hf Hc Hrange Hloop].
  1-4: split; [by left|]; split; [cbn; by intros ?%elem_of_nil
                                 || by intros [=]%list_elem_of_singleton|];
       split; done.
  - split; [by right|]. split; [done|]. split; [by exists r, ab|].
    by intros ? [= <-] ?.
  - split; [by right|]. split; [done|]. split; [by exists r, ab|].
    by intros ? [= <-] ?.
  - assert (metered (StartTtsUsageMetrics text :: Yield TTSStartedFrame ::
                       Log DEBUG note :: t_loop) = [text]) as ->.
    { change (text :: metered t_loop = [text]).
      by erewrite loop_effect_metered by (by eapply loop_trace_shape). }
    split; [by right|]. split; [done|]. split; [by exists r, ab|].
    by intros ? [= <-] ?.
  - assert (metered (StartTtsUsageMetrics text :: Yield TTSStartedFrame ::
                       Log DEBUG note :: t_loop ++ [Yield TTSStoppedFrame]) = [text]) as ->.
    { change (text :: metered (t_loop ++ [Yield TTSStoppedFrame]) = [text]).
      rewrite metered_app.
      by erewrite loop_effect_metered by (by eapply loop_trace_shape). }
    split; [by right|]. split; [done|]. split; [by exists r, ab|].
    by intros ? [= <-] ?.
Qed.

Lemma run_tts_metered env text self :
  metered (trace_of (run_tts env text self)) =
  metered (trace_of (run_tts_try env (transmitted text) self)).
Proof.
  destruct (run_tts_path env text self) as (t & o & E & _ & R).
  rewrite R, E. unfold trace_of. cbn [fst snd].
  change (metered (validation_trace text ++ t ++ except_trace o) = metered t).
  rewrite !metered_app.
  assert (metered (validation_trace text) = []) as ->
    by (unfold validation_trace; by destruct (2500 <? len text)%nat).
  assert (metered (except_trace o) = []) as ->
    by (destruct o as [|e]; [done|]; cbn; by destruct (is_Exception e)).
  by rewrite app_nil_r.
Qed.

(** Usage is metered at most once per call, and on the text that is sent,
    that is, after truncation.  It is metered in every run that yields the
    started marker, only after a 200 response whose body was read, and never
    after a response of another status. *)
Theorem usage_metered_once env text self :
  (metered (trace_of (run_tts env text self)) = [] ∨
   metered (trace_of (run_tts env text self)) = [transmitted text]) ∧
  (TTSStartedFrame ∈ events (trace_of (run_tts env text self)) →
   metered (trace_of (run_tts env text self)) = [transmitted text]) ∧
  (metered (trace_of (run_tts env text self)) = [transmitted text] →
   ∃ r audio_bytes,
     http_response env (trace_of (run_tts env text self)) r ∧
     resp_status r = 200%Z ∧ resp_read r = Returns audio_bytes) ∧
  (∀ r, http_response env (trace_of (run_tts env text self)) r →
        resp_status r ≠ 200%Z → metered (trace_of (run_tts env text self)) = []).
Proof.
  rewrite run_tts_metered.
  destruct (run_tts_observed env text self)
    as (t & o & E & P & _ & _ & Hev & _ & Hposts & _).
  rewrite E, Hev. unfold http_response. rewrite Hposts.
  unfold trace_of at 1 2 3 4 5. cbn [fst snd].
  destruct P as [e|s req t' o' _ HP].
  { split; [by left|]. split.
    { rewrite (proj1 (except_trace_events e)). cbn [events omap app].
      destruct (is_Exception e);
        [by intros [=]%list_elem_of_singleton|by intros ?%elem_of_nil]. }
    split; [done|]. by intros r (? & ? & ?%elem_of_nil & _). }
  assert (posts (StartTtfbMetrics :: Post s req :: t') = [(s, req)]) as ->.
  { change ((s, req) :: posts t' = [(s, req)]).
    by rewrite (response_path_posts _ _ _ _ _ _ HP). }
  change (metered (StartTtfbMetrics :: Post s req :: t')) with (metered t').
  change (events (StartTtfbMetrics :: Post s req :: t')) with (events t').
  destruct (response_path_metered _ _ _ _ _ _ HP) as (H1 & H2 & H3 & H4).
  split; [done|]. split; [|split].
  - intros [Hin|Hin]%elem_of_app; [by apply H2|].
    destruct o' as [|e]; [by apply elem_of_nil in Hin|].
    rewrite (proj1 (except_trace_events e)) in Hin.
    destruct (is_Exception e); [|by apply elem_of_nil in Hin].
    by apply list_elem_of_singleton in Hin.
  - intros Hm. destruct (H3 Hm) as (r & ab & Hr & Hst & Hread).
    exists r, ab. split; [|done]. exists s, req. split; [left|done].
  - intros r (s' & req' & [= -> ->]%list_elem_of_singleton & Hr) Hst. by eapply H4.
Qed.

Lemma transmitted_idem text : transmitted (transmitted text) = transmitted text.
Proof.
  pose proof (transmitted_length text) as Hlen.
  unfold transmitted at 1.
  destruct (Nat.ltb_spec 2500 (len (transmitted text))); [lia|done].
Qed.

(** The characters of the text beyond the first 2500 change nothing but the
    log: a call on the text and a call on its first 2500 characters send the
    same request, yield the same frames, hand the same frames to
    [push_error] and meter the same text. *)
Theorem run_tts_truncation_only env text self :
  events (trace_of (run_tts env text self)) =
    events (trace_of (run_tts env (transmitted text) self)) ∧
  posts (trace_of (run_tts env text self)) =
    posts (trace_of (run_tts env (transmitted text) self)) ∧
  published (trace_of (run_tts env text self)) =
    published (trace_of (run_tts env (transmitted text) self)) ∧
  metered (trace_of (run_tts env text self)) =
    metered (trace_of (run_tts env (transmitted text) self)).
Proof.
  rewrite !run_tts_metered, transmitted_idem.
  destruct (run_tts_observed env text self)
    as (t & o & E & _ & _ & _ & -> & -> & -> & _).
  destruct (run_tts_observed env (transmitted text) self)
    as (t' & o' & E' & _ & _ & _ & -> & -> & -> & _).
  rewrite transmitted_idem, E in E'. by injection E' as <- <-.
Qed.

(** ** The two ends: a failure before the stream, and a full success *)

(** A failure before the stream starts: the request itself raises, or the
    body of a non-200 response cannot be read as text, or the body of a 200
    response cannot be read, or the usage hook raises.  For an [Exception]
    the run yields one error frame, [TTS generation error: ] and the text of
    the exception, hands that frame to [push_error] once and ends normally.
    An exception that is not an [Exception], such as the cancellation of the
    request, goes through: the run yields nothing and hands nothing to
    [push_error]. *)
Theorem run_tts_early_failure env text self e :
  (∃ s req, (s, req) ∈ posts (trace_of (run_tts env text self)) ∧
            env_post env s req = Raises e) ∨
  (∃ r, http_response env (trace_of (run_tts env text self)) r ∧
        ((resp_status r ≠ 200%Z ∧ resp_text r = Raises e) ∨
         (resp_status r = 200%Z ∧ resp_read r = Raises e) ∨
         (resp_status r = 200%Z ∧ (∃ audio_bytes, resp_read r = Returns audio_bytes) ∧
          env_start_tts_usage_metrics env (transmitted text) = Raises e))) →
  events (trace_of (run_tts env text self)) =
    (if is_Exception e then [ErrorFrame ("TTS generation error: " +:+ exc_str e)] else []) ∧
  published (trace_of (run_tts env text self)) =
    (if is_Exception e then [ErrorFrame ("TTS generation error: " +:+ exc_str e)] else []) ∧
  result_of (run_tts env text self) = (if is_Exception e then Returns tt else Raises e).
Proof.
  intros H.
  assert (∃ t, run_tts_try env (transmitted text) self = (self, t, Raises e) ∧
               events t = [] ∧ published t = []) as (t & E & Hev & Hpub).
  { destruct H as [(s & req & Hin & Hpost)|(r & Hr & Hcase)].
    - destruct (run_tts_observed env text self)
        as (t & o & E & P & _ & _ & _ & _ & Hposts & _).
      rewrite Hposts in Hin.
      destruct P as [e'|s' req' t' o' _ HP]; [by apply elem_of_nil in Hin|].
      change (posts (StartTtfbMetrics :: Post s' req' :: t'))
        with ((s', req') :: posts t') in Hin.
      rewrite (response_path_posts _ _ _ _ _ _ HP) in Hin.
      apply list_elem_of_singleton in Hin as [= -> ->].
      rewrite Hpost in HP. inversion HP; subst. by eexists.
    - destruct (run_tts_response env text self r Hr)
        as (s & req & t & o & _ & _ & HP & E & _).
      destruct Hcase as [[Hst Ht]|[[Hst Hread]|(Hst & [ab Hread] & Hu)]];
        inversion HP; subst; try congruence.
      + replace e with e0 by congruence. by eexists.
      + replace e with e0 by congruence. by eexists.
      + replace e with e0 by congruence. by eexists. }
  rewrite (run_tts_result _ _ _ _ _ E).
  destruct (run_tts_observed env text self) as (t' & o' & E' & _ & _ & _ & -> & -> & _).
  rewrite E in E'. injection E' as <- <-.
  rewrite Hev, Hpub. destruct (except_trace_events e) as [-> ->]. done.
Qed.

(** [run_tts_early_failure] at a 502 response whose body cannot be decoded,
    and at a request that is cancelled. *)
Lemma run_tts_early_failure_witness :
  events (trace_of (run_tts (env_answering response_unreadable) "0123456789" example_service))
  = [ErrorFrame "TTS generation error: invalid start byte"] ∧
  events (trace_of (run_tts env_cancelled "0123456789" example_service)) = [] ∧
  result_of (run_tts env_cancelled "0123456789" example_service) =
    Raises (mkException "CancelledError" "").
Proof.
  split.
  - destruct (run_tts_early_failure (env_answering response_unreadable) "0123456789"
                example_service (mkException "UnicodeDecodeError" "invalid start byte"))
      as [H _]; [|exact H].
    right. exists response_unreadable. split.
    + exists 1%nat, (example_request "0123456789"). split; [vm_compute; left|reflexivity].
    + left. split; [vm_compute; discriminate|reflexivity].
  - destruct (run_tts_early_failure env_cancelled "0123456789" example_service
                (mkException "CancelledError" "")) as (H1 & _ & H2); [|by split].
    left. exists 1%nat, (example_request "0123456789").
    split; [vm_compute; left|reflexivity].
Defined.

Lemma sends_unique self text s req s' req' :
  sends self text s req → sends self text s' req' → s = s' ∧ req = req'.
Proof.
  intros (v & f & Hs & Hv & Hf & ->) (v' & f' & Hs' & Hv' & Hf' & ->).
  split; [congruence|]. by replace v' with v by congruence; replace f' with f by congruence.
Qed.

(** A full success.  When the object has a session and its settings, the
    server answers the request with a 200 whose body can be read, no hook
    raises and the chunk size is not zero, the run sends that one request and
    yields the started marker, the chunks of the audio content in order, and
    the stopped marker; nothing goes to [push_error]. *)
Theorem run_tts_happy_path env text self s req r audio_bytes format :
  sends self (transmitted text) s req →
  _settings self !! "output_format" = Some format →
  env_start_ttfb_metrics env = Returns tt →
  env_post env s req = Returns r →
  resp_status r = 200%Z →
  resp_read r = Returns audio_bytes →
  env_start_tts_usage_metrics env (transmitted text) = Returns tt →
  chunk_size (base self) ≠ 0%nat →
  (∀ i, env_stop_ttfb_metrics env i = Returns tt) →
  posts (trace_of (run_tts env text self)) = [(s, req)] ∧
  events (trace_of (run_tts env text self)) =
    TTSStartedFrame ::
      map (audio_frame self)
        (chunks_of (audio_content format audio_bytes) (chunk_size (base self))) ++
      [TTSStoppedFrame] ∧
  published (trace_of (run_tts env text self)) = [].
Proof.
  intros Hsends Hf Hstart Hpost Hst Hread Hu HN Hstop.
  pose proof (succeeds_fully_intro env text self s req r audio_bytes
                Hsends Hstart Hpost Hst Hread Hu HN Hstop) as Hok.
  destruct Hok as (Ho & r' & Hr' & Hst').
  destruct (run_tts_response env text self r' Hr')
    as (s' & req' & t & o & Hsends' & Hpost' & HP & E & Hone & Hev & Hpub).
  destruct (sends_unique _ _ _ _ _ _ Hsends Hsends') as [<- <-].
  assert (r' = r) as -> by congruence.
  split; [done|].
  destruct (run_tts_streamed env text self r (conj Ho (ex_intro _ r (conj Hr' Hst))) Hr')
    as (ab & fmt & _ & Hread' & Hf' & _ & Hstream).
  assert (ab = audio_bytes) as -> by congruence.
  assert (fmt = format) as -> by congruence.
  split; [done|].
  rewrite Hpub. rewrite E in Ho. unfold result_of in Ho. cbn [snd] in Ho. subst o.
  destruct (response_path_events _ _ _ _ _ _ HP)
    as [(_ & _ & [(_ & r0 & m & [= <-] & Hne & _)|(e & [=] & _)])
       |(_ & chunks & _ & -> & _)]; done.
Qed.

(** [run_tts_happy_path] at nine bytes of audio behind a 44-byte header, in
    chunks of 4 bytes. *)
Lemma run_tts_happy_path_witness :
  events (trace_of (run_tts (env_answering (response_200 nine_bytes)) "0123456789"
                      small_chunk_service)) =
    [TTSStartedFrame;
     TTSAudioRawFrame [x01; x02; x03; x04] 22050 1;
     TTSAudioRawFrame [x05; x06; x07; x08] 22050 1;
     TTSAudioRawFrame [x09] 22050 1;
     TTSStoppedFrame].
Proof.
  destruct (run_tts_happy_path (env_answering (response_200 nine_bytes)) "0123456789"
              small_chunk_service 1%nat (example_request "0123456789")
              (response_200 nine_bytes) (repeat x00 44 ++ nine_bytes) "WAV_22050_16")
    as (_ & H & _).
  - exists "v_8eelc901", "WAV_22050_16". repeat split; vm_compute; reflexivity.
  - vm_compute. reflexivity.
  - reflexivity.
  - reflexivity.
  - reflexivity.
  - reflexivity.
  - reflexivity.
  - vm_compute. discriminate.
  - reflexivity.
  - rewrite H. vm_compute. reflexivity.
Defined.
